(** * rx-vs-signal: the two note-data clients and the note router

    A shallow embedding of
    - [NoteDataClient] of the stream page (RxJS subjects and pipelines),
    - [NoteDataClient] of [signals.page.ts] (Angular signals, [rxResource],
      [linkedSignal]),
    - [noteRouter] (the three remote procedures over the [note] table),
    together with the properties the specification states about them. *)

From Stdlib Require Import List String Ascii Bool ZArith Arith Lia Permutation.
From Stdlib Require Import DecimalString.
Import ListNotations.
Local Open Scope string_scope.
Local Open Scope list_scope.

(** Modelled from the spec: the [Note] type of [db.ts], which is not part of
    the sources at hand.  "Note - { id: integer (unique, server-assigned),
    note: text, person: text (owner/username), createdAt: timestamp
    (server-assigned) }".  The timestamp is kept as the instant it denotes
    (milliseconds since the epoch). *)
Record Note : Type := mkNote {
  id : Z;
  note : string;
  person : string;
  createdAt : Z
}.

(** ** JavaScript string primitives used by the filters

    A JavaScript string is a sequence of code units; [string] stands for
    it, with [ascii] as the code unit.  The filters only compare code units
    and look for the space. *)

Module JS.

(** Truthiness of a string: [term => term] keeps the non-empty ones. *)
Definition truthy (s : string) : bool :=
  match s with
  | EmptyString => false
  | String _ _ => true
  end.

(** [s.startsWith(t)]. *)
Fixpoint startsWith (s t : string) {struct t} : bool :=
  match t with
  | EmptyString => true
  | String b t' =>
      match s with
      | EmptyString => false
      | String a s' => Ascii.eqb a b && startsWith s' t'
      end
  end.

(** [s.includes(t)]: [t] starts at some position of [s]. *)
Fixpoint includes (s t : string) : bool :=
  match s with
  | EmptyString => startsWith EmptyString t
  | String _ s' => startsWith s t || includes s' t
  end.

(** [s.split(sep)] for a one-character separator: the pieces between the
    occurrences of [sep], empty pieces included; never the empty array. *)
Fixpoint split (sep : ascii) (s : string) : list string :=
  match s with
  | EmptyString => [EmptyString]
  | String c s' =>
      if Ascii.eqb c sep then EmptyString :: split sep s'
      else match split sep s' with
           | [] => [String c EmptyString]
           | w :: ws => String c w :: ws
           end
  end.

(** [pieces.join(sep)]. *)
Fixpoint join (sep : ascii) (pieces : list string) : string :=
  match pieces with
  | [] => EmptyString
  | [w] => w
  | w :: ws => w ++ String sep (join sep ws)
  end.

(** Truthiness of a value of type [string | null]. *)
Definition truthyOrNull (a : option string) : bool :=
  match a with
  | Some s => truthy s
  | None => false
  end.

(** [a || b] on values of type [string | null]: [a] when it is truthy. *)
Definition or (a b : option string) : option string :=
  if truthyOrNull a then a else b.

(** [c] occurs in [s]. *)
Fixpoint hasChar (c : ascii) (s : string) : bool :=
  match s with
  | EmptyString => false
  | String a s' => Ascii.eqb a c || hasChar c s'
  end.

(** The specification's "occurs as a substring". *)
Definition Substring (t s : string) : Prop :=
  exists pre post : string, s = (pre ++ t ++ post)%string.

End JS.

Definition space : ascii := " "%char.

(** ** Client-side filtering *)

Section Filtering.

(** [String.prototype.toLowerCase] and
    [new Date(createdAt).toLocaleDateString()] belong to the run-time (the
    second depends on the locale and the time zone of the browser): the
    filters are embedded over any such pair of functions. *)
Variable toLowerCase : string -> string.
Variable toLocaleDateString : Z -> string.

(** [term.toLowerCase().split(' ').filter(t => t)], in both clients. *)
Definition searchTerms (term : string) : list string :=
  filter JS.truthy (JS.split space (toLowerCase term)).

(** The text and the date a note is matched against. *)
Definition noteContent (item : Note) : string := toLowerCase (note item).
Definition noteDate (item : Note) : string :=
  toLowerCase (toLocaleDateString (createdAt item)).

(** Stream client, [filterNotes(notes, term)]. *)
Definition filterNotes (notes : list Note) (term : string) : list Note :=
  if negb (JS.truthy term) then notes
  else
    let searchTerms := searchTerms term in
    filter (fun note =>
              forallb (fun term =>
                         JS.includes (noteContent note) term
                         || JS.includes (noteDate note) term)
                      searchTerms)
           notes.

(** Signal client, the computation of [filteredNotes], as a function of
    [this.notes()] and [this.filterText()]. *)
Definition filteredNotes (notes : list Note) (filterText : string)
  : list Note :=
  let searchTerms := searchTerms filterText in
  if (List.length searchTerms =? 0)%nat then notes
  else
    filter (fun item =>
              let lowerItem :=
                (noteContent item ++ String space (noteDate item))%string in
              forallb (fun term => JS.includes lowerItem term) searchTerms)
           notes.

(** The specification's test as a boolean: every search term is included in
    the text or in the date. *)
Definition keeps (term : string) (item : Note) : bool :=
  forallb (fun t => JS.includes (noteContent item) t
                    || JS.includes (noteDate item) t)
          (searchTerms term).

(** The specification's wording: a note matches when every search term
    occurs as a substring of its lowercased text or of its lowercased
    date string. *)
Definition Matches (term : string) (item : Note) : Prop :=
  forall t, In t (searchTerms term) ->
            JS.Substring t (noteContent item)
            \/ JS.Substring t (noteDate item).

End Filtering.

(** An instance of the run-time functions for concrete runs: lowercasing on
    the ASCII letters. *)
Definition asciiLower (c : ascii) : ascii :=
  let n := nat_of_ascii c in
  if ((65 <=? n) && (n <=? 90))%nat then ascii_of_nat (n + 32) else c.

Fixpoint asciiToLowerCase (s : string) : string :=
  match s with
  | EmptyString => EmptyString
  | String c s' => String (asciiLower c) (asciiToLowerCase s')
  end.

(** [toLocaleDateString] for the [en-US] locale in UTC, [m/d/yyyy]: the
    civil date of the day the instant falls in. *)
Definition decimal (z : Z) : string :=
  DecimalString.NilZero.string_of_int (Z.to_int z).

Definition enUSDate (t : Z) : string :=
  let days := (t / 86400000)%Z in
  let z := (days + 719468)%Z in
  let era := (z / 146097)%Z in
  let doe := (z - era * 146097)%Z in
  let yoe := ((doe - doe / 1460 + doe / 36524 - doe / 146096) / 365)%Z in
  let doy := (doe - (365 * yoe + yoe / 4 - yoe / 100))%Z in
  let mp := ((5 * doy + 2) / 153)%Z in
  let d := (doy - (153 * mp + 2) / 5 + 1)%Z in
  let m := (if mp <? 10 then mp + 3 else mp - 9)%Z in
  let y := (yoe + era * 400 + (if m <=? 2 then 1 else 0))%Z in
  (decimal m ++ "/" ++ decimal d ++ "/" ++ decimal y)%string.

(** ** The note router (server side) *)

Module noteRouter.

(** Modelled from the spec: the [note] table behind [db] and [notes] of
    [db.ts], which is not part of the sources at hand.  "Persisted schema:
    one table with auto-incrementing identifier, text note, text person,
    timestamp default-now."  [note_id_seq] is the last value the sequence
    handed out; the rows are kept in insertion order. *)
Record Db : Type := mkDb {
  rows : list Note;
  note_id_seq : Z
}.

(** [+x] on the value of a [bigint] column: the number is the double
    nearest to the integer, ties going to the even significand.  A double
    has 53 significant bits: with [e] the number of bits beyond them, the
    integer is cut to a multiple of [2 ^ e]; an integer of at most 53 bits
    is kept as it is.  The result is given as the integer it denotes. *)
Definition unaryPlus (x : Z) : Z :=
  let a := Z.abs x in
  let e := (Z.log2 a - 52)%Z in
  if (e <=? 0)%Z then x
  else
    let q := (a / 2 ^ e)%Z in
    let r := (a mod 2 ^ e)%Z in
    let half := (2 ^ (e - 1))%Z in
    let q' := if (r <? half)%Z then q
              else if (half <? r)%Z then (q + 1)%Z
                   else if Z.even q then q else (q + 1)%Z in
    (Z.sgn x * (q' * 2 ^ e))%Z.

(** [create]: [db.insert(notes).values({note, person}).returning()].  The
    identifier comes from the sequence and [created_at] defaults to the
    current instant [now].  When a stored note has the identifier already,
    the insert raises on the primary key ([None]) and stores nothing; the
    sequence has moved on all the same. *)
Definition create (db : Db) (now : Z) (note person : string)
  : Db * option (list Note) :=
  let fresh := (note_id_seq db + 1)%Z in
  let row := mkNote fresh note person now in
  if existsb (fun n => (id n =? fresh)%Z) (rows db)
  then (mkDb (rows db) fresh, None)
  else (mkDb (rows db ++ [row]) fresh, Some [row]).

(** [remove]: [db.delete(notes).where(eq(notes.id, input.id)).returning()]. *)
Definition remove (db : Db) (input_id : Z) : Db * list Note :=
  (mkDb (filter (fun n => negb (id n =? input_id)%Z) (rows db))
        (note_id_seq db),
   filter (fun n => (id n =? input_id)%Z) (rows db)).

(** [list]: [select().from(notes).where(eq(notes.person, input.person))],
    then [map(note => ({...note, id: +note.id}))]. *)
Definition list (db : Db) (input_person : string) : list Note :=
  let selectedNotes :=
    filter (fun n => String.eqb (person n) input_person) (rows db) in
  map (fun row =>
         mkNote (unaryPlus (id row)) (note row) (person row) (createdAt row))
      selectedNotes.

End noteRouter.

(** ** What the clients exchange with their environment *)

(** A call sent over the remote procedure transport. *)
Inductive Request : Type :=
| ListQuery (person : string)
| CreateMutate (note person : string)
| RemoveMutate (id : Z).

(** What can happen to a client: a call of its interface, a change detection
    pass of its page, the answer to the call a pipeline is waiting for, a
    timer running out, the teardown of its component. *)
Inductive Event : Type :=
| SetUsername (username : string)
| LoadNotes
| AddNote (note : string)
| DeleteNote (id : Z)
| SetFilterTerm (term : string)
| Render
| ListNext (notes : list Note)
| ListError (message : string)
| CreateNext
| CreateError (message : string)
| RemoveNext
| RemoveError (message : string)
| TimerExpired (handle : nat)
| Destroy.

(** A subscribed pipeline that ends in [switchMap]: unsubscribed (after an
    error notification or [takeUntil]), subscribed with no inner call, or
    subscribed with the one inner call [switchMap] keeps. *)
Inductive Subscription (R : Type) : Type :=
| Unsubscribed
| Waiting
| InFlight (request : R).
Arguments Unsubscribed {R}.
Arguments Waiting {R}.
Arguments InFlight {R} request.

Definition subscribed {R} (p : Subscription R) : bool :=
  match p with Unsubscribed => false | _ => true end.

Definition inFlight {R} (p : Subscription R) : bool :=
  match p with InFlight _ => true | _ => false end.

(** The timers of the host: the pending ones with their delay, and the next
    handle ([setTimeout] returns positive handles, never twice the same). *)
Record Timers : Type := mkTimers {
  pending : list (nat * Z);
  nextHandle : nat
}.

Definition noTimers : Timers := mkTimers [] 1.

Definition setTimeout (delay : Z) (T : Timers) : nat * Timers :=
  (nextHandle T,
   mkTimers ((nextHandle T, delay) :: pending T) (S (nextHandle T))).

Definition clearTimeout (handle : nat) (T : Timers) : Timers :=
  mkTimers (filter (fun t => negb (fst t =? handle)%nat) (pending T))
           (nextHandle T).

Definition isPending (handle : nat) (T : Timers) : bool :=
  existsb (fun t => (fst t =? handle)%nat) (pending T).

(** Handlers change the state of a client and send requests. *)
Definition Effect (S : Type) : Type := S -> S * list Request.

Definition done {S} : Effect S := fun s => (s, []).
Definition update {S} (f : S -> S) : Effect S := fun s => (f s, []).
Definition send {S} (r : S -> Request) : Effect S := fun s => (s, [r s]).
Definition andThen {S} (a b : Effect S) : Effect S :=
  fun s => let (s1, o1) := a s in let (s2, o2) := b s1 in (s2, o1 ++ o2).
Notation "a ;; b" := (andThen a b) (at level 61, right associativity).

(** Runs of a client: the state after a sequence of events, and the
    requests sent on the way. *)
Section Runs.
Context {S : Type} (step : S -> Event -> S * list Request).

Fixpoint run (s : S) (events : list Event) : S :=
  match events with
  | [] => s
  | e :: events' => run (fst (step s e)) events'
  end.

Fixpoint sent (s : S) (events : list Event) : list Request :=
  match events with
  | [] => []
  | e :: events' => snd (step s e) ++ sent (fst (step s e)) events'
  end.
End Runs.

(** ** The stream client *)

Module Rx.

Record State : Type := mkState {
  notes : list Note;
  loading : bool;
  error : option string;
  username : string;
  filterTerm : string;
  showRefresh : bool;
  refreshTimer : option nat;
  timers : Timers;
  loadSub : Subscription string;
  addSub : Subscription (string * string);
  removeSub : Subscription Z;
  usernameSub : bool
}.

Definition set_notes (v : list Note) (s : State) : State :=
  mkState v (loading s) (error s) (username s) (filterTerm s)
    (showRefresh s) (refreshTimer s) (timers s) (loadSub s) (addSub s)
    (removeSub s) (usernameSub s).
Definition set_loading (v : bool) (s : State) : State :=
  mkState (notes s) v (error s) (username s) (filterTerm s) (showRefresh s)
    (refreshTimer s) (timers s) (loadSub s) (addSub s) (removeSub s)
    (usernameSub s).
Definition set_error (v : option string) (s : State) : State :=
  mkState (notes s) (loading s) v (username s) (filterTerm s)
    (showRefresh s) (refreshTimer s) (timers s) (loadSub s) (addSub s)
    (removeSub s) (usernameSub s).
Definition set_username (v : string) (s : State) : State :=
  mkState (notes s) (loading s) (error s) v (filterTerm s) (showRefresh s)
    (refreshTimer s) (timers s) (loadSub s) (addSub s) (removeSub s)
    (usernameSub s).
Definition set_filterTerm (v : string) (s : State) : State :=
  mkState (notes s) (loading s) (error s) (username s) v (showRefresh s)
    (refreshTimer s) (timers s) (loadSub s) (addSub s) (removeSub s)
    (usernameSub s).
Definition set_showRefresh (v : bool) (s : State) : State :=
  mkState (notes s) (loading s) (error s) (username s) (filterTerm s) v
    (refreshTimer s) (timers s) (loadSub s) (addSub s) (removeSub s)
    (usernameSub s).
Definition set_refreshTimer (v : option nat) (s : State) : State :=
  mkState (notes s) (loading s) (error s) (username s) (filterTerm s)
    (showRefresh s) v (timers s) (loadSub s) (addSub s) (removeSub s)
    (usernameSub s).
Definition set_timers (v : Timers) (s : State) : State :=
  mkState (notes s) (loading s) (error s) (username s) (filterTerm s)
    (showRefresh s) (refreshTimer s) v (loadSub s) (addSub s) (removeSub s)
    (usernameSub s).
Definition set_loadSub (v : Subscription string) (s : State) : State :=
  mkState (notes s) (loading s) (error s) (username s) (filterTerm s)
    (showRefresh s) (refreshTimer s) (timers s) v (addSub s) (removeSub s)
    (usernameSub s).
Definition set_addSub (v : Subscription (string * string)) (s : State)
  : State :=
  mkState (notes s) (loading s) (error s) (username s) (filterTerm s)
    (showRefresh s) (refreshTimer s) (timers s) (loadSub s) v (removeSub s)
    (usernameSub s).
Definition set_removeSub (v : Subscription Z) (s : State) : State :=
  mkState (notes s) (loading s) (error s) (username s) (filterTerm s)
    (showRefresh s) (refreshTimer s) (timers s) (loadSub s) (addSub s) v
    (usernameSub s).
Definition set_usernameSub (v : bool) (s : State) : State :=
  mkState (notes s) (loading s) (error s) (username s) (filterTerm s)
    (showRefresh s) (refreshTimer s) (timers s) (loadSub s) (addSub s)
    (removeSub s) v.

(** [setLoading(isLoading)]. *)
Definition setLoading (isLoading : bool) : Effect State :=
  update (set_loading isLoading) ;;
  (if isLoading then update (set_error None) else done).

(** [resetRefreshTimer()]. *)
Definition resetRefreshTimer : Effect State :=
  update (fun s => match refreshTimer s with
                   | Some h => set_timers (clearTimeout h (timers s)) s
                   | None => s
                   end) ;;
  update (set_showRefresh false) ;;
  update (fun s => let (h, T) := setTimeout 4000 (timers s) in
                   set_refreshTimer (Some h) (set_timers T s)).

(** [_loadNotes$.next()]: the load effect up to its [switchMap]. *)
Definition loadNotesNext : Effect State := fun s =>
  if subscribed (loadSub s) then
    (setLoading true ;;
     update (fun s => set_loadSub (InFlight (username s)) s) ;;
     send (fun s => ListQuery (username s))) s
  else done s.

(** [_addNote$.next(noteText)]: the add note effect up to its [switchMap]. *)
Definition addNoteNext (noteText : string) : Effect State := fun s =>
  if subscribed (addSub s) then
    (setLoading true ;;
     update (fun s => set_addSub (InFlight (noteText, username s)) s) ;;
     send (fun s => CreateMutate noteText (username s))) s
  else done s.

(** [_removeNote$.next(id)]: the remove note effect up to its [switchMap]. *)
Definition removeNoteNext (id : Z) : Effect State := fun s =>
  if subscribed (removeSub s) then
    (setLoading true ;;
     update (set_removeSub (InFlight id)) ;;
     send (fun _ => RemoveMutate id)) s
  else done s.

(** [username$.next(username)]: the new value is stored, then the
    subscriber of the constructor's last line triggers a load. *)
Definition usernameNext (u : string) : Effect State :=
  update (set_username u) ;;
  (fun s => if usernameSub s then loadNotesNext s else done s).

Definition setUsername (u : string) : Effect State :=
  usernameNext u ;; loadNotesNext.

Definition loadNotes : Effect State := loadNotesNext.
Definition addNote (note : string) : Effect State := addNoteNext note.
Definition deleteNote (id : Z) : Effect State := removeNoteNext id.
Definition setFilterTerm (term : string) : Effect State :=
  update (set_filterTerm term).

(** The observers of the three effects. *)
Definition loadObserverNext (notes : list Note) : Effect State :=
  update (set_notes notes) ;; setLoading false ;; resetRefreshTimer.

Definition observerError (message : string) : Effect State :=
  setLoading false ;; update (set_error (Some message)).

Definition mutationObserverNext : Effect State :=
  loadNotesNext ;; setLoading false.

(** The callback given to [setTimeout]. *)
Definition refreshTimerCallback : Effect State :=
  update (set_showRefresh true).

Definition ngOnDestroy : Effect State :=
  update (fun s => match refreshTimer s with
                   | Some h => set_timers (clearTimeout h (timers s)) s
                   | None => s
                   end) ;;
  update (fun s => set_usernameSub false
                     (set_removeSub Unsubscribed
                        (set_addSub Unsubscribed
                           (set_loadSub Unsubscribed s)))).

Definition step (s : State) (e : Event) : State * list Request :=
  match e with
  | SetUsername u => setUsername u s
  | LoadNotes => loadNotes s
  | AddNote note => addNote note s
  | DeleteNote id => deleteNote id s
  | SetFilterTerm term => setFilterTerm term s
  | Render => done s
  | ListNext notes =>
      if inFlight (loadSub s)
      then (update (set_loadSub Waiting) ;; loadObserverNext notes) s
      else done s
  | ListError message =>
      if inFlight (loadSub s)
      then (update (set_loadSub Unsubscribed) ;; observerError message) s
      else done s
  | CreateNext =>
      if inFlight (addSub s)
      then (update (set_addSub Waiting) ;; mutationObserverNext) s
      else done s
  | CreateError message =>
      if inFlight (addSub s)
      then (update (set_addSub Unsubscribed) ;; observerError message) s
      else done s
  | RemoveNext =>
      if inFlight (removeSub s)
      then (update (set_removeSub Waiting) ;; mutationObserverNext) s
      else done s
  | RemoveError message =>
      if inFlight (removeSub s)
      then (update (set_removeSub Unsubscribed) ;; observerError message) s
      else done s
  | TimerExpired h =>
      if isPending h (timers s)
      then (update (fun s => set_timers (clearTimeout h (timers s)) s) ;;
            refreshTimerCallback) s
      else done s
  | Destroy => ngOnDestroy s
  end.

(** The field initialisers, then the constructor: the three effects are
    subscribed, and subscribing to [username$] replays its current value,
    which triggers the first load. *)
Definition fields : State :=
  mkState [] false None "" "" false None noTimers
          Unsubscribed Unsubscribed Unsubscribed false.

Definition constructor : Effect State :=
  update (set_loadSub Waiting) ;;
  update (set_addSub Waiting) ;;
  update (set_removeSub Waiting) ;;
  update (set_usernameSub true) ;;
  (fun s => usernameNext (username s) s).

Definition init : State := fst (constructor fields).
Definition initRequests : list Request := snd (constructor fields).

Definition totalNotesCount (s : State) : nat := List.length (notes s).

(** [filteredNotes$] and [filteredNotesCount$], given the run-time's
    [toLowerCase] and [toLocaleDateString]. *)
Definition filteredNotes (toLowerCase : string -> string)
  (toLocaleDateString : Z -> string) (s : State) : list Note :=
  filterNotes toLowerCase toLocaleDateString (notes s) (filterTerm s).

Definition filteredNotesCount (toLowerCase : string -> string)
  (toLocaleDateString : Z -> string) (s : State) : nat :=
  List.length (filteredNotes toLowerCase toLocaleDateString s).

End Rx.

(** ** The signal client *)

Definition fetchFailedText : string := "Fetch of notes failed".

Module Signals.

Inductive ResourceStatus : Type :=
| Idle | Error | Loading | Reloading | Resolved | Local.

Definition status_eqb (a b : ResourceStatus) : bool :=
  match a, b with
  | Idle, Idle | Error, Error | Loading, Loading
  | Reloading, Reloading | Resolved, Resolved | Local, Local => true
  | _, _ => false
  end.

(** The state of [noteResource] ([status], [value], [resourceError],
    [destroyed]), the writable signals, the two subscriptions, the timer
    handle, and the node of the linked signal [showRefresh]: its value, and
    whether its source changed since the computation last ran (it starts
    out not computed). *)
Record State : Type := mkState {
  status : ResourceStatus;
  value : option (list Note);
  resourceError : option string;
  destroyed : bool;
  username : string;
  filterText : string;
  loadingDelete : bool;
  errorDelete : option string;
  loadingCreate : bool;
  errorCreate : option string;
  addSub : Subscription (string * string);
  removeSub : Subscription Z;
  timerId : nat;
  timers : Timers;
  showRefreshValue : bool;
  showRefreshStale : bool
}.

Definition set_status (v : ResourceStatus) (s : State) : State :=
  mkState v (value s) (resourceError s) (destroyed s) (username s)
    (filterText s) (loadingDelete s) (errorDelete s) (loadingCreate s)
    (errorCreate s) (addSub s) (removeSub s) (timerId s) (timers s)
    (showRefreshValue s) (showRefreshStale s).
Definition set_value (v : option (list Note)) (s : State) : State :=
  mkState (status s) v (resourceError s) (destroyed s) (username s)
    (filterText s) (loadingDelete s) (errorDelete s) (loadingCreate s)
    (errorCreate s) (addSub s) (removeSub s) (timerId s) (timers s)
    (showRefreshValue s) (showRefreshStale s).
Definition set_resourceError (v : option string) (s : State) : State :=
  mkState (status s) (value s) v (destroyed s) (username s) (filterText s)
    (loadingDelete s) (errorDelete s) (loadingCreate s) (errorCreate s)
    (addSub s) (removeSub s) (timerId s) (timers s) (showRefreshValue s)
    (showRefreshStale s).
Definition set_destroyed (v : bool) (s : State) : State :=
  mkState (status s) (value s) (resourceError s) v (username s)
    (filterText s) (loadingDelete s) (errorDelete s) (loadingCreate s)
    (errorCreate s) (addSub s) (removeSub s) (timerId s) (timers s)
    (showRefreshValue s) (showRefreshStale s).
Definition set_username (v : string) (s : State) : State :=
  mkState (status s) (value s) (resourceError s) (destroyed s) v
    (filterText s) (loadingDelete s) (errorDelete s) (loadingCreate s)
    (errorCreate s) (addSub s) (removeSub s) (timerId s) (timers s)
    (showRefreshValue s) (showRefreshStale s).
Definition set_filterText (v : string) (s : State) : State :=
  mkState (status s) (value s) (resourceError s) (destroyed s) (username s)
    v (loadingDelete s) (errorDelete s) (loadingCreate s) (errorCreate s)
    (addSub s) (removeSub s) (timerId s) (timers s) (showRefreshValue s)
    (showRefreshStale s).
Definition set_loadingDelete (v : bool) (s : State) : State :=
  mkState (status s) (value s) (resourceError s) (destroyed s) (username s)
    (filterText s) v (errorDelete s) (loadingCreate s) (errorCreate s)
    (addSub s) (removeSub s) (timerId s) (timers s) (showRefreshValue s)
    (showRefreshStale s).
Definition set_errorDelete (v : option string) (s : State) : State :=
  mkState (status s) (value s) (resourceError s) (destroyed s) (username s)
    (filterText s) (loadingDelete s) v (loadingCreate s) (errorCreate s)
    (addSub s) (removeSub s) (timerId s) (timers s) (showRefreshValue s)
    (showRefreshStale s).
Definition set_loadingCreate (v : bool) (s : State) : State :=
  mkState (status s) (value s) (resourceError s) (destroyed s) (username s)
    (filterText s) (loadingDelete s) (errorDelete s) v (errorCreate s)
    (addSub s) (removeSub s) (timerId s) (timers s) (showRefreshValue s)
    (showRefreshStale s).
Definition set_errorCreate (v : option string) (s : State) : State :=
  mkState (status s) (value s) (resourceError s) (destroyed s) (username s)
    (filterText s) (loadingDelete s) (errorDelete s) (loadingCreate s) v
    (addSub s) (removeSub s) (timerId s) (timers s) (showRefreshValue s)
    (showRefreshStale s).
Definition set_addSub (v : Subscription (string * string)) (s : State)
  : State :=
  mkState (status s) (value s) (resourceError s) (destroyed s) (username s)
    (filterText s) (loadingDelete s) (errorDelete s) (loadingCreate s)
    (errorCreate s) v (removeSub s) (timerId s) (timers s)
    (showRefreshValue s) (showRefreshStale s).
Definition set_removeSub (v : Subscription Z) (s : State) : State :=
  mkState (status s) (value s) (resourceError s) (destroyed s) (username s)
    (filterText s) (loadingDelete s) (errorDelete s) (loadingCreate s)
    (errorCreate s) (addSub s) v (timerId s) (timers s) (showRefreshValue s)
    (showRefreshStale s).
Definition set_timerId (v : nat) (s : State) : State :=
  mkState (status s) (value s) (resourceError s) (destroyed s) (username s)
    (filterText s) (loadingDelete s) (errorDelete s) (loadingCreate s)
    (errorCreate s) (addSub s) (removeSub s) v (timers s)
    (showRefreshValue s) (showRefreshStale s).
Definition set_timers (v : Timers) (s : State) : State :=
  mkState (status s) (value s) (resourceError s) (destroyed s) (username s)
    (filterText s) (loadingDelete s) (errorDelete s) (loadingCreate s)
    (errorCreate s) (addSub s) (removeSub s) (timerId s) v
    (showRefreshValue s) (showRefreshStale s).
Definition set_showRefreshValue (v : bool) (s : State) : State :=
  mkState (status s) (value s) (resourceError s) (destroyed s) (username s)
    (filterText s) (loadingDelete s) (errorDelete s) (loadingCreate s)
    (errorCreate s) (addSub s) (removeSub s) (timerId s) (timers s) v
    (showRefreshStale s).
Definition set_showRefreshStale (v : bool) (s : State) : State :=
  mkState (status s) (value s) (resourceError s) (destroyed s) (username s)
    (filterText s) (loadingDelete s) (errorDelete s) (loadingCreate s)
    (errorCreate s) (addSub s) (removeSub s) (timerId s) (timers s)
    (showRefreshValue s) v.

(** [status.set(st)]: a consumer is notified only of a change. *)
Definition setStatus (st : ResourceStatus) : Effect State :=
  update (fun s => if status_eqb st (status s) then s
                   else set_showRefreshStale true (set_status st s)).

(** *** Derived signals *)

Definition isLoading (s : State) : bool :=
  match status s with Loading | Reloading => true | _ => false end.

(** [this.noteResource.value() ?? []]. *)
Definition notes (s : State) : list Note :=
  match value s with Some v => v | None => [] end.

Definition totalNotesCount (s : State) : nat := List.length (notes s).

Definition loading (s : State) : bool :=
  isLoading s || loadingDelete s || loadingCreate s.

Definition error (s : State) : option string :=
  JS.or (JS.or (match resourceError s with
                | Some _ => Some fetchFailedText
                | None => None
                end)
               (errorCreate s))
        (errorDelete s).

(** *** [noteResource]

    [rxResource] is Angular's (the README names Angular 19.1).  Its loads
    are taken to start as soon as the request changes.  What the model
    keeps of it: a change of the request starts a first load ([Loading],
    no value) and drops the pending one; [reload()] declines on an idle
    resource and while a load is under way, and otherwise starts a load
    ([Reloading]) with the value and the error kept until the result; a
    result resolves the resource, an error leaves it without a value. *)

(** A change of the request: the pending load is dropped and a first load
    for the new request starts; the value goes back to undefined. *)
Definition load : Effect State :=
  setStatus Loading ;;
  update (set_value None) ;;
  update (set_resourceError None) ;;
  send (fun s => ListQuery (username s)).

(** [noteResource.reload()]: nothing when the resource is idle or a load
    is under way, a first one or a reload; otherwise a load starts and the
    value persists. *)
Definition reload : Effect State := fun s =>
  match status s with
  | Idle | Loading | Reloading => done s
  | _ => (setStatus Reloading ;; send (fun s => ListQuery (username s))) s
  end.

Definition loaderNext (result : list Note) : Effect State :=
  setStatus Resolved ;;
  update (set_value (Some result)) ;;
  update (set_resourceError None).

Definition loaderError (message : string) : Effect State :=
  update (set_value None) ;;
  setStatus Error ;;
  update (set_resourceError (Some message)).

(** The resource is destroyed with its injector: the pending load is
    dropped and the resource becomes idle. *)
Definition destroyResource : Effect State :=
  update (set_destroyed true) ;;
  setStatus Idle ;;
  update (set_value None) ;;
  update (set_resourceError None).

(** *** The interface *)

(** [username.set(username)]: setting an equal value changes nothing. *)
Definition setUsername (u : string) : Effect State := fun s =>
  if String.eqb u (username s) then done s
  else (update (set_username u) ;;
        (fun s => if destroyed s then done s else load s)) s.

Definition loadNotes : Effect State := reload.

(** [addNote$.next(note)]: the pipeline up to its [switchMap]. *)
Definition addNote (note : string) : Effect State := fun s =>
  if subscribed (addSub s) then
    (update (set_loadingCreate true) ;;
     update (set_errorCreate None) ;;
     update (fun s => set_addSub (InFlight (note, username s)) s) ;;
     send (fun s => CreateMutate note (username s))) s
  else done s.

(** [removeNote$.next(id)]: the pipeline up to its [switchMap]. *)
Definition deleteNote (id : Z) : Effect State := fun s =>
  if subscribed (removeSub s) then
    (update (set_loadingDelete true) ;;
     update (set_errorDelete None) ;;
     update (set_removeSub (InFlight id)) ;;
     send (fun _ => RemoveMutate id)) s
  else done s.

Definition setFilterTerm (term : string) : Effect State :=
  update (set_filterText term).

(** The observers of the two pipelines. *)
Definition addObserverNext : Effect State :=
  loadNotes ;; update (set_loadingCreate false).
Definition addObserverError (message : string) : Effect State :=
  update (set_errorCreate (Some message)).
Definition removeObserverNext : Effect State :=
  loadNotes ;; update (set_loadingDelete false).
Definition removeObserverError (message : string) : Effect State :=
  update (set_errorDelete (Some message)).

(** *** [showRefresh] *)

(** The [computation] of the linked signal, given the status. *)
Definition computation (st : ResourceStatus) : Effect State :=
  update (fun s => if (0 <? timerId s)%nat
                   then set_timers (clearTimeout (timerId s) (timers s)) s
                   else s) ;;
  update (fun s => match st with
                   | Resolved =>
                       let (h, T) := setTimeout 4000 (timers s) in
                       set_timerId h (set_timers T s)
                   | _ => s
                   end) ;;
  update (set_showRefreshValue false).

(** Bringing the linked signal up to date, as a read of it does. *)
Definition refreshShowRefresh : Effect State := fun s =>
  if showRefreshStale s
  then (update (set_showRefreshStale false) ;; computation (status s)) s
  else done s.

(** [showRefresh()]. *)
Definition showRefresh (s : State) : State * bool :=
  let s' := fst (refreshShowRefresh s) in (s', showRefreshValue s').

(** The callback given to [setTimeout]: [showRefresh.set(true)] brings the
    node up to date before it stores the value. *)
Definition timerCallback : Effect State :=
  refreshShowRefresh ;;
  update (set_showRefreshValue true) ;;
  update (set_timerId 0%nat).

(** [ngOnDestroy()]: [_destroy$] emits and completes, which ends the two
    pipelines through [takeUntil].  The teardown of the component runs it
    and destroys the resource. *)
Definition ngOnDestroy : Effect State :=
  update (fun s => set_removeSub Unsubscribed (set_addSub Unsubscribed s)).

Definition step (s : State) (e : Event) : State * list Request :=
  match e with
  | SetUsername u => setUsername u s
  | LoadNotes => loadNotes s
  | AddNote note => addNote note s
  | DeleteNote id => deleteNote id s
  | SetFilterTerm term => setFilterTerm term s
  | Render => if destroyed s then done s else refreshShowRefresh s
  | ListNext result => if isLoading s then loaderNext result s else done s
  | ListError message =>
      if isLoading s then loaderError message s else done s
  | CreateNext =>
      if inFlight (addSub s)
      then (update (set_addSub Waiting) ;; addObserverNext) s
      else done s
  | CreateError message =>
      if inFlight (addSub s)
      then (update (set_addSub Unsubscribed) ;; addObserverError message) s
      else done s
  | RemoveNext =>
      if inFlight (removeSub s)
      then (update (set_removeSub Waiting) ;; removeObserverNext) s
      else done s
  | RemoveError message =>
      if inFlight (removeSub s)
      then (update (set_removeSub Unsubscribed) ;;
            removeObserverError message) s
      else done s
  | TimerExpired h =>
      if isPending h (timers s)
      then (update (fun s => set_timers (clearTimeout h (timers s)) s) ;;
            timerCallback) s
      else done s
  | Destroy => (ngOnDestroy ;; destroyResource) s
  end.

(** The field initialisers, then the constructor (the two pipelines are
    subscribed) and the first run of the resource's effect. *)
Definition fields : State :=
  mkState Idle None None false "" "" false None false None
          Unsubscribed Unsubscribed 0%nat noTimers false true.

Definition constructor : Effect State :=
  update (set_addSub Waiting) ;;
  update (set_removeSub Waiting) ;;
  load.

Definition init : State := fst (constructor fields).
Definition initRequests : list Request := snd (constructor fields).

(** The signals [filteredNotes] and [filteredNotesCount], given the
    run-time's [toLowerCase] and [toLocaleDateString]. *)
Definition filteredNotes (toLowerCase : string -> string)
  (toLocaleDateString : Z -> string) (s : State) : list Note :=
  filteredNotes toLowerCase toLocaleDateString (notes s) (filterText s).

Definition filteredNotesCount (toLowerCase : string -> string)
  (toLocaleDateString : Z -> string) (s : State) : nat :=
  List.length (filteredNotes toLowerCase toLocaleDateString s).

End Signals.

(** ** The two clients side by side *)

Inductive Paradigm : Type := Stream | Signal.

Definition ClientState (p : Paradigm) : Type :=
  match p with Stream => Rx.State | Signal => Signals.State end.

Definition init (p : Paradigm) : ClientState p :=
  match p with Stream => Rx.init | Signal => Signals.init end.

Definition step (p : Paradigm)
  : ClientState p -> Event -> ClientState p * list Request :=
  match p with Stream => Rx.step | Signal => Signals.step end.

(** A state the client can be in: the one its constructor leaves, or one an
    event leads to. *)
Inductive reachable (p : Paradigm) : ClientState p -> Prop :=
| reachable_init : reachable p (init p)
| reachable_step s e : reachable p s -> reachable p (fst (step p s e)).

(** The members of [NoteDataClientInterface] the properties speak of. *)
Definition notes (p : Paradigm) : ClientState p -> list Note :=
  match p with Stream => Rx.notes | Signal => Signals.notes end.

Definition loading (p : Paradigm) : ClientState p -> bool :=
  match p with Stream => Rx.loading | Signal => Signals.loading end.

Definition error (p : Paradigm) : ClientState p -> option string :=
  match p with Stream => Rx.error | Signal => Signals.error end.

Definition username (p : Paradigm) : ClientState p -> string :=
  match p with Stream => Rx.username | Signal => Signals.username end.

(** The subscriptions of the add note and remove note pipelines. *)
Definition addSub (p : Paradigm)
  : ClientState p -> Subscription (string * string) :=
  match p with Stream => Rx.addSub | Signal => Signals.addSub end.

Definition removeSub (p : Paradigm) : ClientState p -> Subscription Z :=
  match p with Stream => Rx.removeSub | Signal => Signals.removeSub end.

(** A list fetch is awaited. *)
Definition fetching (p : Paradigm) : ClientState p -> bool :=
  match p with
  | Stream => fun s => inFlight (Rx.loadSub s)
  | Signal => Signals.isLoading
  end.

(** The list can be loaded: the load effect of the stream client is still
    subscribed; the resource of the signal client is neither idle nor in
    its first load. *)
Definition canReload (p : Paradigm) : ClientState p -> bool :=
  match p with
  | Stream => fun s => subscribed (Rx.loadSub s)
  | Signal => fun s => match Signals.status s with
                       | Signals.Idle | Signals.Loading => false
                       | _ => true
                       end
  end.

(** The subscribed effect pipelines. *)
Inductive Pipeline : Type := LoadPipeline | AddPipeline | RemovePipeline.

(** The pipeline whose remote call fails when [e] happens in [s], if any:
    [e] is an error notification and the pipeline awaits its call.  The list
    fetch of the signal client is the loader of [noteResource], not a
    subscribed pipeline. *)
Definition failingPipeline (p : Paradigm) (s : ClientState p) (e : Event)
  : option Pipeline :=
  match e with
  | ListError _ =>
      match p return ClientState p -> option Pipeline with
      | Stream => fun s => if inFlight (Rx.loadSub s)
                           then Some LoadPipeline else None
      | Signal => fun _ => None
      end s
  | CreateError _ => if inFlight (addSub p s) then Some AddPipeline else None
  | RemoveError _ =>
      if inFlight (removeSub p s) then Some RemovePipeline else None
  | _ => None
  end.

(** The calls of the operation that feeds a pipeline. *)
Definition callOf (k : Pipeline) (e : Event) : bool :=
  match k, e with
  | LoadPipeline, LoadNotes => true
  | AddPipeline, AddNote _ => true
  | RemovePipeline, DeleteNote _ => true
  | _, _ => false
  end.

(** Pipeline [k] of the client is unsubscribed. *)
Definition closed (p : Paradigm) (k : Pipeline) : ClientState p -> Prop :=
  match p, k with
  | Stream, LoadPipeline => fun s => Rx.loadSub s = Unsubscribed
  | Stream, AddPipeline => fun s => Rx.addSub s = Unsubscribed
  | Stream, RemovePipeline => fun s => Rx.removeSub s = Unsubscribed
  | Signal, LoadPipeline => fun _ => False
  | Signal, AddPipeline => fun s => Signals.addSub s = Unsubscribed
  | Signal, RemovePipeline => fun s => Signals.removeSub s = Unsubscribed
  end.

(** Sample data for concrete runs. *)
Definition milk : Note := mkNote 1 "Buy Milk" "ann" 0.
Definition bob : Note := mkNote 2 "call bob" "ann" 1700000000000.
Definition tea : Note := mkNote 3 "Tea with Ann" "joe" 86400000.
Definition sampleDb : noteRouter.Db := noteRouter.mkDb [milk; bob; tea] 3.

(** ** Predicates the properties are stated with *)

(** While a create (a delete) is awaited, its loading flag is up. *)
Definition awaitedIsLoading (s : Signals.State) : Prop :=
  (inFlight (Signals.addSub s) = true -> Signals.loadingCreate s = true)
  /\ (inFlight (Signals.removeSub s) = true -> Signals.loadingDelete s = true).

(** The loading flag of pipeline [k] is up. *)
Definition flagUp (k : Pipeline) (s : Signals.State) : Prop :=
  match k with
  | LoadPipeline => False
  | AddPipeline => Signals.loadingCreate s = true
  | RemovePipeline => Signals.loadingDelete s = true
  end.

(** The error signal fed by pipeline [k], and the text an error notification
    carries. *)
Definition errorOf (k : Pipeline) (s : Signals.State) : option string :=
  match k with
  | LoadPipeline => Signals.resourceError s
  | AddPipeline => Signals.errorCreate s
  | RemovePipeline => Signals.errorDelete s
  end.

Definition messageOf (e : Event) : option string :=
  match e with
  | ListError m | CreateError m | RemoveError m => Some m
  | _ => None
  end.

(** An idle, first-loading or failed resource has no value. *)
Definition valueless (s : Signals.State) : Prop :=
  match Signals.status s with
  | Signals.Idle | Signals.Loading | Signals.Error => Signals.value s = None
  | _ => True
  end.

(** [e] delivers the result of a list fetch. *)
Definition resolvesFetch (e : Event) : bool :=
  match e with ListNext _ => true | _ => false end.

(** [e] answers a call the client awaits. *)
Definition awaited (p : Paradigm) (s : ClientState p) (e : Event) : bool :=
  match e with
  | ListNext _ | ListError _ => fetching p s
  | CreateNext | CreateError _ => inFlight (addSub p s)
  | RemoveNext | RemoveError _ => inFlight (removeSub p s)
  | _ => false
  end.

(** The property on failures as the specification words it: the fixed text for
    a failed list fetch, the text of the error for a failed create or
    delete, on the error observable or signal of either client. *)
Definition shows_failures_as_stated : Prop :=
  forall (p : Paradigm) (s : ClientState p) (e : Event) (m : string),
    reachable p s -> messageOf e = Some m -> awaited p s e = true ->
    error p (fst (step p s e))
    = Some (match e with ListError _ => fetchFailedText | _ => m end)
    /\ snd (step p s e) = [].

(** What the clients show after the failure [e] with text [m], [s] being the
    state before and [s1] the state after.  The stream client publishes the
    text.  The signal client keeps the text in the signal of the failed call
    and derives its error signal: the fixed text while the resource has an
    error, else the create error when truthy, else the delete error. *)
Definition shown (p : Paradigm)
  : ClientState p -> Event -> string -> ClientState p -> Prop :=
  match p with
  | Stream => fun _ _ m s1 => Rx.error s1 = Some m
  | Signal => fun s e m s1 =>
      match e with
      | ListError _ =>
          Signals.resourceError s1 = Some m
          /\ Signals.error s1 = Some fetchFailedText
      | CreateError _ =>
          Signals.errorCreate s1 = Some m
          /\ Signals.error s1
             = match Signals.resourceError s with
               | Some _ => Some fetchFailedText
               | None => if JS.truthy m then Some m else Signals.errorDelete s
               end
      | RemoveError _ =>
          Signals.errorDelete s1 = Some m
          /\ Signals.error s1
             = match Signals.resourceError s with
               | Some _ => Some fetchFailedText
               | None => if JS.truthyOrNull (Signals.errorCreate s)
                         then Signals.errorCreate s else Some m
               end
      | _ => True
      end
  end.

(** The events on which a client may send a request: the calls of its
    interface and the completion of a mutation. *)
Definition maySend (e : Event) : bool :=
  match e with
  | SetUsername _ | LoadNotes | AddNote _ | DeleteNote _
  | CreateNext | RemoveNext => true
  | _ => false
  end.

(** [e] is the success of a mutation. *)
Definition completes (e : Event) : bool :=
  match e with CreateNext | RemoveNext => true | _ => false end.

(** The property on reloads as the specification words it: in both clients,
    whenever a create or a delete completes, a list fetch is sent. *)
Definition reloads_after_every_mutation : Prop :=
  forall (p : Paradigm) (s : ClientState p) (e : Event),
    reachable p s -> completes e = true -> awaited p s e = true ->
    exists u, In (ListQuery u) (snd (step p s e)).

(** The stream client holds at most one pending timer, of 4000 ms, and
    [_refreshTimer] is its handle. *)
Definition oneTimer (s : Rx.State) : Prop :=
  pending (Rx.timers s) = []
  \/ exists h, Rx.refreshTimer s = Some h
               /\ pending (Rx.timers s) = [(h, 4000%Z)].

(** ** Further predicates: the table, the page *)

(** The table as the schema keeps it: [id] is the primary key, and every id
    was handed out by the sequence. *)
Definition wellFormed (db : noteRouter.Db) : Prop :=
  NoDup (map id (noteRouter.rows db))
  /\ Forall (fun n => (id n <= noteRouter.note_id_seq db)%Z)
            (noteRouter.rows db).

(** A stored row as [list] returns it: its id as a number. *)
Definition numbered (row : Note) : Note :=
  mkNote (noteRouter.unaryPlus (id row)) (note row) (person row)
         (createdAt row).

(** Every stored id is an integer a number holds as it is. *)
Definition safeIds (db : noteRouter.Db) : Prop :=
  Forall (fun n => (Z.abs (id n) <= 2 ^ 53)%Z) (noteRouter.rows db).

(** A call of [loadNotes()] starts a load: the load effect of the stream
    client is still subscribed; the resource of the signal client is
    resolved or failed, with no load under way. *)
Definition loadStarts (p : Paradigm) : ClientState p -> bool :=
  match p with
  | Stream => fun s => subscribed (Rx.loadSub s)
  | Signal => fun s => match Signals.status s with
                       | Signals.Idle | Signals.Loading
                       | Signals.Reloading => false
                       | _ => true
                       end
  end.

(** The blocks of the page templates.  The error block stands for the list
    ([*ngIf="error; else noerror"]); inside the list, the two messages for
    a list with no row to show. *)
Definition showsError (error : option string) : bool :=
  JS.truthyOrNull error.

Definition showsNotes (error : option string) : bool :=
  negb (showsError error).

Definition showsNoMatch (notes filteredNotes : list Note) : bool :=
  negb (List.length notes =? 0)%nat && (List.length filteredNotes =? 0)%nat.

Definition showsNoNotesYet (notes : list Note) : bool :=
  (List.length notes =? 0)%nat.

(** What a page shows of the list, given the error, the notes and the
    filtered notes of its client: the rows, and the two messages.  All
    three stand in the [noerror] template, which the error block
    replaces. *)
Definition rowsShown (error : option string) (filteredNotes : list Note)
  : list Note :=
  if showsNotes error then filteredNotes else [].

Definition noMatchShown (error : option string)
  (notes filteredNotes : list Note) : bool :=
  showsNotes error && showsNoMatch notes filteredNotes.

Definition noNotesYetShown (error : option string) (notes : list Note)
  : bool :=
  showsNotes error && showsNoNotesYet notes.

(** The events that may change the notes a client holds. *)
Definition mayChangeNotes (p : Paradigm) (e : Event) : bool :=
  match e with
  | ListNext _ => true
  | ListError _ | SetUsername _ | Destroy =>
      match p with Stream => false | Signal => true end
  | _ => false
  end.

(** The username a request is made for. *)
Definition personOf (r : Request) : option string :=
  match r with
  | ListQuery u | CreateMutate _ u => Some u
  | RemoveMutate _ => None
  end.

(** The client has been torn down. *)
Definition tornDown (p : Paradigm) : ClientState p -> Prop :=
  match p with
  | Stream => fun s =>
      Rx.loadSub s = Unsubscribed /\ Rx.addSub s = Unsubscribed
      /\ Rx.removeSub s = Unsubscribed /\ Rx.usernameSub s = false
  | Signal => fun s =>
      Signals.destroyed s = true /\ Signals.status s = Signals.Idle
      /\ Signals.addSub s = Unsubscribed
      /\ Signals.removeSub s = Unsubscribed
  end.

(** * Properties *)

(** ** Strings *)

Module JSFacts.
Import JS.

Lemma startsWith_spec (s t : string) :
  startsWith s t = true <-> exists post, s = (t ++ post)%string.
Proof.
  revert s; induction t as [|b t IH]; intros s; simpl.
  - split; [intros _; now exists s | reflexivity].
  - destruct s as [|a s]; simpl.
    + split; [discriminate | intros [post H]; discriminate].
    + rewrite andb_true_iff, Ascii.eqb_eq, IH. split.
      * intros [-> [post ->]]. now exists post.
      * intros [post H]. injection H as -> ->.
        split; [reflexivity | now exists post].
Qed.

Lemma includes_spec (s t : string) :
  includes s t = true <-> Substring t s.
Proof.
  unfold Substring. induction s as [|a s IH].
  - cbn [includes]. rewrite startsWith_spec. split.
    + intros [post H]. now exists EmptyString, post.
    + intros [pre [post H]]. destruct pre; [now exists post | discriminate].
  - cbn [includes]. rewrite orb_true_iff, startsWith_spec, IH. split.
    + intros [[post H] | [pre [post H]]].
      * now exists EmptyString, post.
      * exists (String a pre), post. simpl. now rewrite H.
    + intros [pre [post H]]. destruct pre as [|c pre].
      * left. now exists post.
      * right. simpl in H. injection H as _ H. now exists pre, post.
Qed.

Lemma split_not_nil (sep : ascii) (s : string) : split sep s <> [].
Proof.
  induction s as [|c s IH]; simpl; [discriminate|].
  destruct (Ascii.eqb c sep); [discriminate|].
  destruct (split sep s); [contradiction | discriminate].
Qed.

(** No piece contains the separator. *)
Lemma split_hasChar (sep : ascii) (s w : string) :
  In w (split sep s) -> hasChar sep w = false.
Proof.
  revert w; induction s as [|c s IH]; simpl; intros w H.
  - destruct H as [<- | []]. reflexivity.
  - destruct (Ascii.eqb c sep) eqn:E.
    + destruct H as [<- | H]; [reflexivity | now apply IH].
    + destruct (split sep s) as [|v vs] eqn:Es.
      * destruct H as [<- | []]. simpl. now rewrite E.
      * destruct H as [<- | H].
        -- simpl. rewrite E. apply IH. now left.
        -- apply IH. now right.
Qed.

(** Joining the pieces gives the string back. *)
Lemma join_split (sep : ascii) (s : string) : join sep (split sep s) = s.
Proof.
  induction s as [|c s IH]; [reflexivity|].
  cbn [split]. destruct (Ascii.eqb c sep) eqn:E.
  - apply Ascii.eqb_eq in E. subst c.
    pose proof (split_not_nil sep s) as Hn.
    cbn [join]. destruct (split sep s) as [|v vs]; [contradiction|].
    simpl. now rewrite <- IH.
  - pose proof (split_not_nil sep s) as Hn.
    destruct (split sep s) as [|v vs]; [contradiction|].
    destruct vs as [|v' vs]; cbn [join] in *.
    + now rewrite IH.
    + rewrite <- IH. reflexivity.
Qed.

Lemma startsWith_before (sep : ascii) (a b t : string) :
  hasChar sep t = false ->
  startsWith (a ++ String sep b) t = startsWith a t.
Proof.
  revert a; induction t as [|c t IH]; intros a H; [reflexivity|].
  simpl in H. apply orb_false_iff in H as [Hc Ht].
  destruct a as [|x a]; simpl.
  - rewrite Ascii.eqb_sym, Hc. reflexivity.
  - now rewrite IH.
Qed.

(** A non-empty string without the separator occurs in [a sep b] exactly
    when it occurs in [a] or in [b]. *)
Lemma includes_around (sep : ascii) (a b t : string) :
  truthy t = true -> hasChar sep t = false ->
  includes (a ++ String sep b) t = includes a t || includes b t.
Proof.
  intros Ht Hs. induction a as [|x a IH].
  - pose proof (startsWith_before sep EmptyString b t Hs) as E.
    change (EmptyString ++ String sep b)%string with (String sep b) in *.
    cbn [includes]. rewrite E.
    destruct t; [discriminate | reflexivity].
  - change (String x a ++ String sep b)%string
      with (String x (a ++ String sep b)).
    cbn [includes]. rewrite IH.
    change (String x (a ++ String sep b))
      with (String x a ++ String sep b)%string.
    rewrite (startsWith_before sep (String x a) b t Hs).
    now rewrite orb_assoc.
Qed.

End JSFacts.

(** ** The client-side filters *)

Section FilteringFacts.

Variable toLowerCase : string -> string.
Variable toLocaleDateString : Z -> string.

Local Abbreviation searchTerms := (searchTerms toLowerCase).
Local Abbreviation noteContent := (noteContent toLowerCase).
Local Abbreviation noteDate := (noteDate toLowerCase toLocaleDateString).
Local Abbreviation filterNotes := (filterNotes toLowerCase toLocaleDateString).
Local Abbreviation filteredNotes :=
  (filteredNotes toLowerCase toLocaleDateString).
Local Abbreviation Matches := (Matches toLowerCase toLocaleDateString).
Local Abbreviation keeps := (keeps toLowerCase toLocaleDateString).

Lemma searchTerms_spec (term t : string) :
  In t (searchTerms term) <->
  In t (JS.split space (toLowerCase term)) /\ t <> "".
Proof.
  unfold searchTerms. rewrite filter_In. split.
  - intros [H Ht]. split; [exact H | now intros ->].
  - intros [H Ht]. split; [exact H | destruct t; [contradiction | reflexivity]].
Qed.

Lemma searchTerms_truthy (term t : string) :
  In t (searchTerms term) -> JS.truthy t = true.
Proof. unfold searchTerms. rewrite filter_In. now intros [_ H]. Qed.

Lemma searchTerms_no_space (term t : string) :
  In t (searchTerms term) -> JS.hasChar space t = false.
Proof.
  unfold searchTerms. rewrite filter_In. intros [H _].
  now apply JSFacts.split_hasChar in H.
Qed.

Lemma keeps_spec (term : string) (item : Note) :
  keeps term item = true <-> Matches term item.
Proof.
  unfold keeps, Matches. rewrite forallb_forall.
  split; intros H t Ht; specialize (H t Ht).
  - apply orb_true_iff in H.
    now rewrite !JSFacts.includes_spec in H.
  - apply orb_true_iff. now rewrite !JSFacts.includes_spec.
Qed.

Lemma filter_all {A} (f : A -> bool) (l : list A) :
  (forall x, In x l -> f x = true) -> filter f l = l.
Proof.
  induction l as [|a l IH]; intros H; [reflexivity|].
  simpl. rewrite (H a (or_introl eq_refl)). f_equal.
  apply IH. intros x Hx. apply H. now right.
Qed.

(** Lowercasing the empty string gives the empty string: all the filters'
    agreement asks of [toLowerCase]. *)
Hypothesis toLowerCase_empty : toLowerCase "" = "".

Lemma searchTerms_empty : searchTerms "" = [].
Proof. unfold searchTerms. now rewrite toLowerCase_empty. Qed.

(** The stream filter is the filter by [keeps]. *)
Lemma filterNotes_keeps (notes : list Note) (term : string) :
  filterNotes notes term = filter (keeps term) notes.
Proof.
  unfold filterNotes, keeps.
  destruct term as [|c term]; [|reflexivity].
  simpl. symmetry. apply filter_all. intros x _.
  now rewrite searchTerms_empty.
Qed.

(** On a search term, looking in [text date] is looking in the text or in
    the date. *)
Lemma includes_lowerItem (term t : string) (item : Note) :
  In t (searchTerms term) ->
  JS.includes (noteContent item ++ String space (noteDate item)) t
  = JS.includes (noteContent item) t || JS.includes (noteDate item) t.
Proof.
  intros H. apply JSFacts.includes_around.
  - now apply searchTerms_truthy in H.
  - now apply searchTerms_no_space in H.
Qed.

Lemma forallb_ext_in {A} (f g : A -> bool) (l : list A) :
  (forall x, In x l -> f x = g x) -> forallb f l = forallb g l.
Proof.
  induction l as [|a l IH]; intros H; [reflexivity|].
  simpl. rewrite (H a (or_introl eq_refl)). f_equal.
  apply IH. intros x Hx. apply H. now right.
Qed.

(** The signal filter is the filter by [keeps]. *)
Lemma filteredNotes_keeps (notes : list Note) (term : string) :
  filteredNotes notes term = filter (keeps term) notes.
Proof.
  unfold filteredNotes, keeps.
  destruct (searchTerms term) as [|t ts] eqn:E.
  - simpl. symmetry. now apply filter_all.
  - cbn [List.length Nat.eqb]. apply filter_ext. intros item.
    apply forallb_ext_in. intros u Hu. rewrite <- E in Hu.
    now apply includes_lowerItem with (term := term).
Qed.

(** C1. For every list of notes and every filter term, each client's filter
    returns exactly the notes that match, in their order: with the search
    terms being the non-empty pieces of the lowercased term split on spaces,
    a note is kept if and only if every search term occurs as a substring of
    its lowercased text or of its lowercased locale date string; when there
    is no search term the list is returned unchanged. *)
Theorem filters_return_the_matching_notes
  (notes : list Note) (term : string) :
  (forall t, In t (searchTerms term) <->
             In t (JS.split space (toLowerCase term)) /\ t <> "") /\
  (forall item, keeps term item = true <-> Matches term item) /\
  filterNotes notes term = filter (keeps term) notes /\
  filteredNotes notes term = filter (keeps term) notes /\
  (forall item, In item (filterNotes notes term) <->
                In item notes /\ Matches term item) /\
  (forall item, In item (filteredNotes notes term) <->
                In item notes /\ Matches term item) /\
  (searchTerms term = [] ->
   filterNotes notes term = notes /\ filteredNotes notes term = notes).
Proof.
  split; [intros t; apply searchTerms_spec|].
  split; [intros item; apply keeps_spec|].
  split; [apply filterNotes_keeps|].
  split; [apply filteredNotes_keeps|].
  split; [|split].
  - intros item. now rewrite filterNotes_keeps, filter_In, keeps_spec.
  - intros item. now rewrite filteredNotes_keeps, filter_In, keeps_spec.
  - intros E. rewrite filterNotes_keeps, filteredNotes_keeps.
    assert (H : forall x, In x notes -> keeps term x = true).
    { intros x _. unfold keeps. now rewrite E. }
    now rewrite (filter_all _ _ H).
Qed.

(** C6. The two clients filter alike: for every list of notes and every
    filter term, the signal client's filter (each search term looked up in
    the text, a space and the date put together) and the stream client's
    filter (each search term looked up in the text or in the date) return
    the same list. *)
Theorem signal_and_stream_filters_agree
  (notes : list Note) (term : string) :
  filteredNotes notes term = filterNotes notes term.
Proof. now rewrite filteredNotes_keeps, filterNotes_keeps. Qed.

End FilteringFacts.

Lemma filters_return_the_matching_notes_witness :
  asciiToLowerCase "" = "" /\
  filterNotes asciiToLowerCase enUSDate [milk; bob; tea] "  "
  = [milk; bob; tea].
Proof.
  split; [reflexivity|].
  destruct (filters_return_the_matching_notes asciiToLowerCase enUSDate
              eq_refl [milk; bob; tea] "  ") as [_ [_ [_ [_ [_ [_ H]]]]]].
  apply H. reflexivity.
Defined.

Lemma signal_and_stream_filters_agree_witness :
  asciiToLowerCase "" = "" /\
  filteredNotes asciiToLowerCase enUSDate [milk; bob; tea] "ANN 1970"
  = filterNotes asciiToLowerCase enUSDate [milk; bob; tea] "ANN 1970".
Proof.
  split; [reflexivity|].
  apply (signal_and_stream_filters_agree asciiToLowerCase enUSDate eq_refl).
Defined.

Example filterNotes_sample :
  filterNotes asciiToLowerCase enUSDate [milk; bob; tea] "ANN 1970" = [tea]
  /\ filterNotes asciiToLowerCase enUSDate [milk; bob; tea] "1/1" = [milk; bob]
  /\ filteredNotes asciiToLowerCase enUSDate [milk; bob; tea] "b  l"
     = [milk; bob].
Proof. repeat split. Qed.

(** ** The note router *)

Module noteRouterFacts.
Import noteRouter.

(** An integer of at most 53 bits is its own number. *)
Lemma unaryPlus_safe (x : Z) : (Z.abs x <= 2 ^ 53)%Z -> unaryPlus x = x.
Proof.
  intros H. destruct (Z.eq_dec (Z.abs x) (2 ^ 53)) as [E | E].
  - destruct (Z.abs_eq_or_opp x) as [Hx | Hx]; rewrite Hx in E.
    + subst x. reflexivity.
    + assert (x = (- 2 ^ 53)%Z) by lia. subst x. reflexivity.
  - unfold unaryPlus.
    assert (Hl : (Z.log2 (Z.abs x) - 52 <= 0)%Z).
    { destruct (Z.eq_dec (Z.abs x) 0) as [Z0 | Z0].
      - rewrite Z0. simpl. lia.
      - assert (Z.log2 (Z.abs x) < 53)%Z; [|lia].
        apply Z.log2_lt_pow2; lia. }
    apply Z.leb_le in Hl. now rewrite Hl.
Qed.

(** The number of an integer is a double - a significand of at most 53
    bits times the unit the integer was cut to - and no further from the
    integer than half that unit. *)
Lemma unaryPlus_nearest (x : Z) :
  let u := (2 ^ Z.max 0 (Z.log2 (Z.abs x) - 52))%Z in
  (exists m, unaryPlus x = (m * u)%Z /\ (Z.abs m <= 2 ^ 53)%Z)
  /\ (2 * Z.abs (unaryPlus x - x) <= u)%Z.
Proof.
  unfold unaryPlus.
  set (a := Z.abs x). set (e := (Z.log2 a - 52)%Z).
  destruct (e <=? 0)%Z eqn:He.
  - apply Z.leb_le in He. rewrite Z.max_l by lia. simpl. split.
    + exists x. split; [lia|]. fold a.
      destruct (Z.eq_dec a 0) as [Z0 | Z0]; [lia|].
      assert (a < 2 ^ 53)%Z; [|lia].
      apply Z.log2_lt_pow2; unfold a in *; lia.
    + rewrite Z.sub_diag. simpl. lia.
  - apply Z.leb_gt in He. rewrite Z.max_r by lia.
    assert (Ha : (0 < a)%Z).
    { destruct (Z.eq_dec a 0) as [Z0 | Z0]; [|unfold a in *; lia].
      unfold e in He. rewrite Z0 in He. simpl in He. lia. }
    set (P := (2 ^ e)%Z). set (h := (2 ^ (e - 1))%Z).
    assert (HP : P = (2 * h)%Z).
    { unfold P, h. replace e with (Z.succ (e - 1)) at 1 by lia.
      rewrite Z.pow_succ_r by lia. reflexivity. }
    assert (Hh : (0 < h)%Z) by (unfold h; apply Z.pow_pos_nonneg; lia).
    pose proof (Z.div_mod a P ltac:(lia)) as Hdm.
    pose proof (Z.mod_pos_bound a P ltac:(lia)) as Hr.
    set (q := (a / P)%Z) in *. set (r := (a mod P)%Z) in *.
    assert (Hq0 : (0 <= q)%Z) by (unfold q; apply Z.div_pos; lia).
    assert (Hq : (q < 2 ^ 53)%Z).
    { unfold q. apply Z.div_lt_upper_bound; [lia|].
      unfold P. rewrite <- Z.pow_add_r by lia.
      replace (e + 53)%Z with (Z.succ (Z.log2 a)) by (unfold e; lia).
      apply Z.log2_spec. lia. }
    set (q' := if (r <? h)%Z then q
               else if (h <? r)%Z then (q + 1)%Z
                    else if Z.even q then q else (q + 1)%Z).
    assert (Hq' : (q' = q /\ (r <= h)%Z) \/ (q' = (q + 1)%Z /\ (h <= r)%Z)).
    { unfold q'. destruct (r <? h)%Z eqn:E1; [apply Z.ltb_lt in E1; lia|].
      apply Z.ltb_ge in E1. destruct (h <? r)%Z eqn:E2.
      - apply Z.ltb_lt in E2. lia.
      - apply Z.ltb_ge in E2. destruct (Z.even q); lia. }
    assert (Hx : x = (Z.sgn x * a)%Z) by (unfold a; destruct x; reflexivity).
    assert (Hs : Z.abs (Z.sgn x) = 1%Z).
    { destruct x; try reflexivity. unfold a in Ha. simpl in Ha. lia. }
    fold q'. fold P. clearbody q' q r h P a. split.
    + exists (Z.sgn x * q')%Z. split; [lia|].
      rewrite Z.abs_mul, Hs, Z.mul_1_l. lia.
    + replace (Z.sgn x * (q' * P) - x)%Z with (Z.sgn x * (q' * P - a))%Z
        by (rewrite Hx at 2; lia).
      rewrite Z.abs_mul, Hs, Z.mul_1_l.
      destruct Hq' as [[-> Hle] | [-> Hle]]; nia.
Qed.

Example unaryPlus_sample :
  unaryPlus 9007199254740992 = 9007199254740992%Z
  /\ unaryPlus 9007199254740993 = 9007199254740992%Z
  /\ unaryPlus 9007199254740995 = 9007199254740996%Z
  /\ unaryPlus (-9007199254740993) = (-9007199254740992)%Z
  /\ unaryPlus 9223372036854775807 = 9223372036854775808%Z.
Proof. repeat split. Qed.

Lemma numbered_safe (row : Note) :
  (Z.abs (id row) <= 2 ^ 53)%Z -> numbered row = row.
Proof.
  destruct row as [i t u c]. unfold numbered. simpl. intros H.
  now rewrite unaryPlus_safe.
Qed.

Lemma list_numbered (db : Db) (username : string) :
  list db username
  = map numbered
        (filter (fun n => String.eqb (person n) username) (rows db)).
Proof. reflexivity. Qed.

Lemma In_list (db : Db) (username : string) (n : Note) :
  In n (list db username) <->
  exists row, In row (rows db) /\ person row = username /\ n = numbered row.
Proof.
  rewrite list_numbered, in_map_iff. split.
  - intros [row [<- H]]. apply filter_In in H as [H1 H2].
    apply String.eqb_eq in H2. now exists row.
  - intros [row [H1 [H2 ->]]]. exists row. split; [reflexivity|].
    apply filter_In. split; [exact H1 | now apply String.eqb_eq].
Qed.

Lemma map_numbered_safe (l : Datatypes.list Note) :
  Forall (fun n => (Z.abs (id n) <= 2 ^ 53)%Z) l -> map numbered l = l.
Proof.
  induction 1 as [|a l Ha _ IH]; [reflexivity|].
  simpl. now rewrite numbered_safe, IH.
Qed.

Lemma Forall_filter {A} (P : A -> Prop) (f : A -> bool)
  (l : Datatypes.list A) :
  Forall P l -> Forall P (filter f l).
Proof.
  rewrite !Forall_forall. intros H x Hx. apply filter_In in Hx as [Hx _].
  now apply H.
Qed.

(** With ids that numbers hold as they are, the list is the stored rows of
    the person themselves. *)
Lemma list_as_filter (db : Db) (username : string) :
  safeIds db ->
  list db username
  = filter (fun n => String.eqb (person n) username) (rows db).
Proof.
  intros H. rewrite list_numbered. apply map_numbered_safe.
  now apply Forall_filter.
Qed.

Lemma safeIds_remove (db : Db) (i : Z) :
  safeIds db -> safeIds (fst (remove db i)).
Proof. intros H. simpl. now apply Forall_filter. Qed.

(** A filter and its complement share out the list. *)
Lemma filter_split {A} (f : A -> bool) (l : Datatypes.list A) :
  Permutation l (filter f l ++ filter (fun a => negb (f a)) l).
Proof.
  induction l as [|a l IH]; [constructor|].
  simpl. destruct (f a); simpl.
  - now constructor.
  - now apply Permutation_cons_app.
Qed.

(** What a create returns and stores: it raises when a stored note has the
    next id of the sequence, and otherwise stores and returns one row. *)
Lemma create_cases (db : Db) (now : Z) (t u : string) :
  let fresh := (note_id_seq db + 1)%Z in
  let row := mkNote fresh t u now in
  ((exists n, In n (rows db) /\ id n = fresh)
   /\ create db now t u = (mkDb (rows db) fresh, None))
  \/ ((forall n, In n (rows db) -> id n <> fresh)
      /\ create db now t u = (mkDb (rows db ++ [row]) fresh, Some [row])).
Proof.
  intros fresh row. unfold create. fold fresh.
  destruct (existsb (fun n => (id n =? fresh)%Z) (rows db)) eqn:E.
  - left. split; [|reflexivity].
    apply existsb_exists in E as [n [Hn Hi]].
    exists n. split; [exact Hn | now apply Z.eqb_eq].
  - right. split; [|reflexivity]. intros n Hn Hi.
    assert (Ht : existsb (fun n => (id n =? fresh)%Z) (rows db) = true).
    { apply existsb_exists. exists n. split; [exact Hn|].
      now apply Z.eqb_eq. }
    congruence.
Qed.

(** After a create, the list of the person holds the inserted row. *)
Lemma create_then_list (db : Db) (now : Z) (t u : string) (row : Note) :
  snd (create db now t u) = Some [row] ->
  In (numbered row) (list (fst (create db now t u)) u)
  /\ note row = t /\ person row = u.
Proof.
  destruct (create_cases db now t u) as [[_ ->] | [_ ->]];
    cbn [fst snd]; [discriminate|].
  intros [= <-]. split; [|split; reflexivity].
  apply In_list. exists (mkNote (note_id_seq db + 1) t u now).
  split; [|split; reflexivity].
  cbn [rows]. apply in_or_app. right. now left.
Qed.

(** After a remove, with ids that numbers hold as they are, no list holds
    a note with the identifier. *)
Lemma remove_then_list (db : Db) (i : Z) (u : string) (n : Note) :
  safeIds db -> In n (list (fst (remove db i)) u) -> id n <> i.
Proof.
  intros H. rewrite (list_as_filter _ _ (safeIds_remove db i H)).
  simpl. rewrite !filter_In, negb_true_iff, Z.eqb_neq. tauto.
Qed.

End noteRouterFacts.

(** C2. For every username, the list operation returns the stored notes
    whose person field equals the username, and only those, in the order of
    the table, each with its id as a number: the text, the person and the
    instant of the row are kept, and the id is the double nearest to the
    stored integer - the integer itself when it has at most 53 bits, so
    that the list is then the stored notes of the person as they are. *)
Theorem list_returns_the_notes_of_the_person
  (db : noteRouter.Db) (username : string) :
  noteRouter.list db username
  = map numbered
        (filter (fun n => String.eqb (person n) username)
                (noteRouter.rows db))
  /\ (forall n, In n (noteRouter.list db username) <->
                exists row, In row (noteRouter.rows db)
                            /\ person row = username /\ n = numbered row)
  /\ (forall row,
        id (numbered row) = noteRouter.unaryPlus (id row)
        /\ note (numbered row) = note row
        /\ person (numbered row) = person row
        /\ createdAt (numbered row) = createdAt row)
  /\ (forall x,
        let u := (2 ^ Z.max 0 (Z.log2 (Z.abs x) - 52))%Z in
        (exists m, noteRouter.unaryPlus x = (m * u)%Z
                   /\ (Z.abs m <= 2 ^ 53)%Z)
        /\ (2 * Z.abs (noteRouter.unaryPlus x - x) <= u)%Z)
  /\ (safeIds db ->
      noteRouter.list db username
      = filter (fun n => String.eqb (person n) username)
               (noteRouter.rows db)
      /\ forall n, In n (noteRouter.list db username) <->
                   In n (noteRouter.rows db) /\ person n = username).
Proof.
  split; [reflexivity|].
  split; [intros n; apply noteRouterFacts.In_list|].
  split; [intros row; repeat split|].
  split; [intros x; apply noteRouterFacts.unaryPlus_nearest|].
  intros Hs. split; [now apply noteRouterFacts.list_as_filter|].
  intros n. rewrite (noteRouterFacts.list_as_filter db username Hs).
  now rewrite filter_In, String.eqb_eq.
Qed.

Lemma safeIds_sampleDb : safeIds sampleDb.
Proof. repeat constructor; simpl; lia. Qed.

Lemma list_returns_the_notes_of_the_person_witness :
  safeIds sampleDb
  /\ noteRouter.list sampleDb "ann"
     = filter (fun n => String.eqb (person n) "ann")
              (noteRouter.rows sampleDb).
Proof.
  split; [exact safeIds_sampleDb|].
  destruct (list_returns_the_notes_of_the_person sampleDb "ann")
    as [_ [_ [_ [_ H]]]].
  exact (proj1 (H safeIds_sampleDb)).
Defined.

(** Two stored ids beyond 53 bits that the list returns as one number. *)
Example list_rounds_large_ids :
  let db := noteRouter.mkDb
              [mkNote 9007199254740992 "a" "ann" 0;
               mkNote 9007199254740993 "b" "ann" 0] 9007199254740993 in
  map id (noteRouter.list db "ann")
  = [9007199254740992%Z; 9007199254740992%Z].
Proof. reflexivity. Qed.

(** C7. For every identifier, the remove operation deletes the stored notes
    whose id equals the identifier, and only those, and returns them; the
    notes with another id stay in the table, unchanged and in their order. *)
Theorem remove_deletes_the_notes_with_the_id
  (db : noteRouter.Db) (i : Z) :
  let db' := fst (noteRouter.remove db i) in
  let deleted := snd (noteRouter.remove db i) in
  (forall n, In n deleted <-> In n (noteRouter.rows db) /\ id n = i)
  /\ (forall n, In n (noteRouter.rows db') <->
                In n (noteRouter.rows db) /\ id n <> i)
  /\ deleted = filter (fun n => (id n =? i)%Z) (noteRouter.rows db)
  /\ noteRouter.rows db'
     = filter (fun n => negb (id n =? i)%Z) (noteRouter.rows db)
  /\ Permutation (noteRouter.rows db) (deleted ++ noteRouter.rows db')
  /\ noteRouter.note_id_seq db' = noteRouter.note_id_seq db.
Proof.
  simpl. repeat split.
  - rewrite filter_In, Z.eqb_eq in H. tauto.
  - rewrite filter_In, Z.eqb_eq in H. tauto.
  - intros [H1 H2]. now rewrite filter_In, Z.eqb_eq.
  - rewrite filter_In in H. tauto.
  - rewrite filter_In, negb_true_iff, Z.eqb_neq in H. tauto.
  - intros [H1 H2]. now rewrite filter_In, negb_true_iff, Z.eqb_neq.
  - apply noteRouterFacts.filter_split.
Qed.

Example router_sample :
  noteRouter.list sampleDb "ann" = [milk; bob]
  /\ noteRouter.remove sampleDb 2
     = (noteRouter.mkDb [milk; tea] 3, [bob])
  /\ noteRouter.create sampleDb 5 "x" "joe"
     = (noteRouter.mkDb [milk; bob; tea; mkNote 4 "x" "joe" 5] 4,
        Some [mkNote 4 "x" "joe" 5])
  /\ noteRouter.create (noteRouter.mkDb [milk; bob; tea] 2) 5 "x" "joe"
     = (noteRouter.mkDb [milk; bob; tea] 3, None).
Proof. repeat split. Qed.

(** ** The clients as state machines *)

Lemma run_app {S} (step : S -> Event -> S * list Request)
  (s : S) (l1 l2 : list Event) :
  run step s (l1 ++ l2) = run step (run step s l1) l2.
Proof.
  revert s; induction l1 as [|e l1 IH]; intros s; [reflexivity | apply IH].
Qed.

Lemma reachable_run (p : Paradigm) (s : ClientState p) (l : list Event) :
  reachable p s -> reachable p (run (step p) s l).
Proof.
  revert s; induction l as [|e l IH]; intros s H; [exact H|].
  apply IH. now constructor.
Qed.

(** Unfolds the handlers and splits on what they test. *)
Ltac handlers :=
  cbv [andThen update send done
       Rx.step Rx.setUsername Rx.usernameNext Rx.loadNotes Rx.addNote
       Rx.deleteNote Rx.setFilterTerm Rx.loadNotesNext Rx.addNoteNext
       Rx.removeNoteNext Rx.loadObserverNext Rx.observerError
       Rx.mutationObserverNext Rx.refreshTimerCallback Rx.ngOnDestroy
       Rx.setLoading Rx.resetRefreshTimer
       Signals.step Signals.setUsername Signals.loadNotes Signals.addNote
       Signals.deleteNote Signals.setFilterTerm Signals.reload Signals.load
       Signals.loaderNext Signals.loaderError Signals.destroyResource
       Signals.addObserverNext Signals.addObserverError
       Signals.removeObserverNext Signals.removeObserverError
       Signals.computation Signals.refreshShowRefresh Signals.timerCallback
       Signals.ngOnDestroy Signals.setStatus Signals.isLoading] in *.

Ltac split_tests :=
  repeat (cbn in *;
          match goal with
          | |- context [if ?b then _ else _] => is_var b; destruct b
          | |- context [match ?x with _ => _ end] => is_var x; destruct x
          | |- context [if ?b then _ else _] =>
              lazymatch b with
              | context [if _ then _ else _] => fail
              | context [match _ with _ => _ end] => fail
              | _ => destruct b eqn:?
              end
          end);
  cbn in *.

Lemma closed_after_failure (p : Paradigm) (s : ClientState p) (e : Event)
  (k : Pipeline) :
  failingPipeline p s e = Some k -> closed p k (fst (step p s e)).
Proof.
  destruct p, s; destruct e; cbn [failingPipeline addSub removeSub];
    try discriminate;
    cbn [step Rx.loadSub Rx.addSub Rx.removeSub Signals.addSub
         Signals.removeSub];
    handlers; cbn.
  all: split_tests; intros H; try discriminate H; reflexivity.
Qed.

Lemma closed_step (p : Paradigm) (k : Pipeline) (s : ClientState p)
  (e : Event) :
  closed p k s -> closed p k (fst (step p s e)).
Proof.
  destruct p, k, s; destruct e; cbn [closed step]; try contradiction;
    cbn [Rx.loadSub Rx.addSub Rx.removeSub Signals.addSub Signals.removeSub];
    intros ->; handlers; cbn; split_tests; reflexivity.
Qed.

Lemma closed_run (p : Paradigm) (k : Pipeline) (s : ClientState p)
  (l : list Event) :
  closed p k s -> closed p k (run (step p) s l).
Proof.
  revert s; induction l as [|e l IH]; intros s H; [exact H|].
  apply IH. now apply closed_step.
Qed.

Lemma closed_call (p : Paradigm) (k : Pipeline) (s : ClientState p)
  (call : Event) :
  closed p k s -> callOf k call = true -> step p s call = (s, []).
Proof.
  destruct p, k, s; destruct call; cbn [closed callOf step];
    try contradiction; try discriminate;
    cbn [Rx.loadSub Rx.addSub Rx.removeSub Signals.addSub Signals.removeSub];
    intros -> _; reflexivity.
Qed.

(** C8. In both clients, once the remote call of a subscribed effect
    pipeline errors, the pipeline is unsubscribed for good: every later
    call of the operation that feeds it (loadNotes, addNote, deleteNote)
    sends no request and leaves the state as it is, whatever happened in
    between. *)
Theorem failed_pipeline_ignores_later_calls
  (p : Paradigm) (s : ClientState p) (e : Event) (k : Pipeline)
  (later : list Event) (call : Event) :
  failingPipeline p s e = Some k ->
  callOf k call = true ->
  let s' := run (step p) (fst (step p s e)) later in
  closed p k s' /\ step p s' call = (s', []).
Proof.
  intros Hf Hc s'.
  assert (H : closed p k s')
    by (apply closed_run; now apply closed_after_failure).
  split; [exact H | now apply closed_call with (k := k)].
Qed.

Lemma failed_pipeline_ignores_later_calls_witness :
  failingPipeline Stream (init Stream) (ListError "boom") = Some LoadPipeline
  /\ callOf LoadPipeline LoadNotes = true
  /\ let s' := run (step Stream)
                  (fst (step Stream (init Stream) (ListError "boom")))
                  [SetUsername "ann"; AddNote "x"; CreateNext] in
     closed Stream LoadPipeline s' /\ step Stream s' LoadNotes = (s', []).
Proof.
  split; [reflexivity|]. split; [reflexivity|].
  apply (failed_pipeline_ignores_later_calls Stream (init Stream)
           (ListError "boom") LoadPipeline
           [SetUsername "ann"; AddNote "x"; CreateNext] LoadNotes);
    reflexivity.
Defined.

(** The list fetch of the signal client is not such a pipeline: after a
    failed fetch, [loadNotes()] fetches again. *)
Lemma signal_reload_after_failed_fetch (s : Signals.State) (m : string) :
  Signals.isLoading s = true ->
  snd (Signals.step (fst (Signals.step s (ListError m))) LoadNotes)
  = [ListQuery (Signals.username s)].
Proof.
  destruct s. cbn [Signals.step]. intros ->. handlers. split_tests; reflexivity.
Qed.

(** ** Loading flags of the signal client *)

Lemma awaitedIsLoading_step (s : Signals.State) (e : Event) :
  awaitedIsLoading s -> awaitedIsLoading (fst (Signals.step s e)).
Proof.
  unfold awaitedIsLoading. destruct s, e; cbn [Signals.step];
    cbn [Signals.addSub Signals.removeSub Signals.loadingCreate
         Signals.loadingDelete];
    intros [Ha Hr]; handlers; split_tests; split; intros H;
    try discriminate H; try congruence; auto.
Qed.

Lemma awaitedIsLoading_reachable (s : Signals.State) :
  reachable Signal s -> awaitedIsLoading s.
Proof.
  induction 1 as [|s e _ IH].
  - split; discriminate.
  - now apply awaitedIsLoading_step.
Qed.

Lemma flagUp_step (k : Pipeline) (s : Signals.State) (e : Event) :
  closed Signal k s -> flagUp k s -> flagUp k (fst (Signals.step s e)).
Proof.
  destruct k, s; destruct e; cbn [closed flagUp Signals.step];
    try contradiction;
    cbn [Signals.addSub Signals.removeSub Signals.loadingCreate
         Signals.loadingDelete];
    intros -> ->; handlers; split_tests; reflexivity.
Qed.

Lemma flagUp_run (k : Pipeline) (s : Signals.State) (l : list Event) :
  closed Signal k s -> flagUp k s -> flagUp k (run Signals.step s l).
Proof.
  revert s; induction l as [|e l IH]; intros s Hc Hf; [exact Hf|].
  apply IH; [now apply (closed_step Signal) | now apply flagUp_step].
Qed.

Lemma flagUp_loading (k : Pipeline) (s : Signals.State) :
  flagUp k s -> Signals.loading s = true.
Proof.
  unfold Signals.loading. destruct k; cbn [flagUp]; [contradiction| |];
    intros ->; now rewrite ?orb_true_r.
Qed.

Lemma failure_sets_error (s : Signals.State) (e : Event) (k : Pipeline) :
  failingPipeline Signal s e = Some k ->
  errorOf k (fst (Signals.step s e)) = messageOf e.
Proof.
  destruct s, e; cbn [failingPipeline addSub removeSub Signals.addSub
                      Signals.removeSub]; try discriminate;
    cbn [Signals.step Signals.addSub Signals.removeSub]; handlers;
    split_tests; intros H; try discriminate H; injection H as <-;
    reflexivity.
Qed.

Lemma failure_keeps_flag (s : Signals.State) (e : Event) (k : Pipeline) :
  awaitedIsLoading s ->
  failingPipeline Signal s e = Some k ->
  flagUp k (fst (Signals.step s e)).
Proof.
  unfold awaitedIsLoading.
  destruct s, e; cbn [failingPipeline addSub removeSub Signals.addSub
                      Signals.removeSub Signals.loadingCreate
                      Signals.loadingDelete]; try discriminate;
    cbn [Signals.step Signals.addSub Signals.removeSub]; handlers;
    intros [Ha Hr]; split_tests; intros H; try discriminate H;
    injection H as <-; cbn; auto.
Qed.

(** C9. In the signal client, when a create or a delete fails, the error
    handler stores the message and leaves the loading flag of the mutation
    up; the derived loading signal is true from then on. *)
Theorem failed_mutation_keeps_loading_true
  (s : Signals.State) (e : Event) (k : Pipeline) (later : list Event) :
  reachable Signal s ->
  failingPipeline Signal s e = Some k ->
  let s1 := fst (Signals.step s e) in
  errorOf k s1 = messageOf e
  /\ flagUp k s1
  /\ Signals.loading (run Signals.step s1 later) = true.
Proof.
  intros Hr Hf s1.
  assert (Hflag : flagUp k s1)
    by (apply failure_keeps_flag;
        [now apply awaitedIsLoading_reachable | exact Hf]).
  split; [now apply failure_sets_error|]. split; [exact Hflag|].
  apply flagUp_loading with (k := k). apply flagUp_run; [|exact Hflag].
  now apply (closed_after_failure Signal).
Qed.

Lemma failed_mutation_keeps_loading_true_witness :
  let s := run Signals.step Signals.init [ListNext [milk]; AddNote "x"] in
  let s1 := fst (Signals.step s (CreateError "boom")) in
  Signals.errorCreate s1 = Some "boom"
  /\ Signals.loadingCreate s1 = true
  /\ Signals.loading
       (run Signals.step s1 [LoadNotes; ListNext [milk]; AddNote "y"; Destroy])
     = true.
Proof.
  apply (failed_mutation_keeps_loading_true
           (run Signals.step Signals.init [ListNext [milk]; AddNote "x"])
           (CreateError "boom") AddPipeline
           [LoadNotes; ListNext [milk]; AddNote "y"; Destroy]).
  - apply (reachable_run Signal). constructor.
  - reflexivity.
Defined.

(** ** The notes signal *)

Lemma valueless_step (s : Signals.State) (e : Event) :
  valueless s -> valueless (fst (Signals.step s e)).
Proof.
  unfold valueless.
  destruct s, e; cbn [Signals.step Signals.status Signals.value];
    handlers; split_tests; intros H; try exact I; try reflexivity;
    try discriminate; try exact H.
Qed.

Lemma valueless_reachable (s : Signals.State) :
  reachable Signal s -> valueless s.
Proof.
  induction 1 as [|s e _ IH]; [reflexivity | now apply valueless_step].
Qed.

Lemma no_value_step (s : Signals.State) (e : Event) :
  resolvesFetch e = false ->
  Signals.value s = None -> Signals.value (fst (Signals.step s e)) = None.
Proof.
  destruct s, e; cbn [resolvesFetch Signals.step Signals.value];
    try discriminate; intros _ ->; handlers; split_tests; reflexivity.
Qed.

Lemma no_value_run (s : Signals.State) (l : list Event) :
  existsb resolvesFetch l = false ->
  Signals.value s = None -> Signals.value (run Signals.step s l) = None.
Proof.
  revert s; induction l as [|e l IH]; intros s Hl Hs; [exact Hs|].
  simpl in Hl. apply orb_false_iff in Hl as [He Hl].
  apply IH; [exact Hl | now apply no_value_step].
Qed.

(** C10. In the signal client the notes signal is always a list: whenever
    the resource has no value - before the first fetch resolves, while it
    first loads, after a fetch error - [notes()] is the empty list; and
    [totalNotesCount()] is the length of [notes()]. *)
Theorem notes_signal_is_always_a_list (events : list Event) :
  let s := run Signals.step Signals.init events in
  (Signals.value s = None -> Signals.notes s = [])
  /\ Signals.totalNotesCount s = List.length (Signals.notes s)
  /\ (existsb resolvesFetch events = false -> Signals.notes s = [])
  /\ (Signals.status s = Signals.Loading -> Signals.notes s = [])
  /\ (Signals.status s = Signals.Error -> Signals.notes s = []).
Proof.
  intros s.
  assert (Hv : valueless s)
    by (apply valueless_reachable, (reachable_run Signal); constructor).
  assert (H0 : Signals.value s = None -> Signals.notes s = [])
    by (unfold Signals.notes; now intros ->).
  split; [exact H0|]. split; [reflexivity|]. split; [|split].
  - intros H. apply H0. now apply no_value_run.
  - intros H. apply H0. unfold valueless in Hv. now rewrite H in Hv.
  - intros H. apply H0. unfold valueless in Hv. now rewrite H in Hv.
Qed.

Lemma notes_signal_is_always_a_list_witness :
  let s := run Signals.step Signals.init
             [ListNext [milk; bob]; LoadNotes; ListError "boom"] in
  Signals.status s = Signals.Error /\ Signals.notes s = [].
Proof.
  split; [reflexivity|].
  destruct (notes_signal_is_always_a_list
              [ListNext [milk; bob]; LoadNotes; ListError "boom"])
    as [_ [_ [_ [_ H]]]].
  apply H. reflexivity.
Defined.

(** ** Failures *)

Lemma sends_only_when_asked (p : Paradigm) (s : ClientState p) (e : Event) :
  maySend e = false -> snd (step p s e) = [].
Proof.
  destruct p, s; destruct e; cbn [maySend step]; try discriminate; intros _;
    handlers; split_tests; reflexivity.
Qed.

Lemma failure_shown (p : Paradigm) (s : ClientState p) (e : Event)
  (m : string) :
  messageOf e = Some m -> awaited p s e = true ->
  shown p s e m (fst (step p s e)).
Proof.
  destruct p, s; destruct e;
    cbn [messageOf awaited fetching addSub removeSub step shown];
    try discriminate; intros [= ->];
    cbn [Rx.loadSub Rx.addSub Rx.removeSub Signals.addSub Signals.removeSub];
    unfold Signals.error, JS.or; handlers; cbn; intros H;
    try rewrite H; split_tests; try discriminate; repeat split.
Qed.

Lemma sent_nothing_unasked (p : Paradigm) (s : ClientState p)
  (l : list Event) :
  existsb maySend l = false -> sent (step p) s l = [].
Proof.
  revert s; induction l as [|e l IH]; intros s H; [reflexivity|].
  simpl in H. apply orb_false_iff in H as [He Hl].
  cbn [sent]. now rewrite (sends_only_when_asked p s e He), IH.
Qed.

(** C3, as amended. Whenever a remote call fails, each client records the
    failure and does not retry: it sends nothing on the failure, and nothing
    afterwards until its interface is called or a mutation succeeds.  The
    stream client publishes the text of the error on its error observable,
    for a failed list fetch as for a failed create or delete.  The signal
    client shows the fixed text "Fetch of notes failed" after a failed list
    fetch; after a failed create or delete it stores the text of the error,
    and its error signal shows it unless a fetch error, or a truthy error of
    the create, or the emptiness of the text itself, puts another one
    first. *)
Theorem failures_are_shown_without_retry
  (p : Paradigm) (s : ClientState p) (e : Event) (m : string) :
  messageOf e = Some m -> awaited p s e = true ->
  shown p s e m (fst (step p s e))
  /\ snd (step p s e) = []
  /\ forall later : list Event,
       existsb maySend later = false ->
       sent (step p) (fst (step p s e)) later = [].
Proof.
  intros Hm Ha. split; [now apply failure_shown|]. split.
  - apply sends_only_when_asked. destruct e; try discriminate; reflexivity.
  - intros later. apply sent_nothing_unasked.
Qed.

Lemma failures_are_shown_without_retry_witness :
  let s := run Signals.step Signals.init [ListNext [milk]; AddNote "x"] in
  let r := Signals.step s (CreateError "boom") in
  messageOf (CreateError "boom") = Some "boom"
  /\ awaited Signal s (CreateError "boom") = true
  /\ Signals.error (fst r) = Some "boom"
  /\ snd r = [].
Proof.
  split; [reflexivity|]. split; [reflexivity|].
  pose proof (failures_are_shown_without_retry Signal
                (run Signals.step Signals.init [ListNext [milk]; AddNote "x"])
                (CreateError "boom") "boom" eq_refl eq_refl) as [[_ H1] [H2 _]].
  split; [exact H1 | exact H2].
Defined.

(** The stream client shows the text of the error after a failed list
    fetch, not the fixed text: the property as worded does not hold. *)
Lemma stream_fetch_failure_shows_the_error_text :
  reachable Stream (init Stream)
  /\ awaited Stream (init Stream) (ListError "boom") = true
  /\ error Stream (fst (step Stream (init Stream) (ListError "boom")))
     = Some "boom"
  /\ ~ shows_failures_as_stated.
Proof.
  split; [constructor|]. split; [reflexivity|]. split; [reflexivity|].
  intros H.
  destruct (H Stream (init Stream) (ListError "boom") "boom"
              (reachable_init Stream) eq_refl eq_refl) as [H1 _].
  discriminate H1.
Qed.

(** ** Reload after a mutation *)

Lemma mutation_reloads (p : Paradigm) (s : ClientState p) (e : Event) :
  completes e = true -> awaited p s e = true -> loadStarts p s = true ->
  snd (step p s e) = [ListQuery (username p s)]
  /\ fetching p (fst (step p s e)) = true
  /\ username p (fst (step p s e)) = username p s.
Proof.
  destruct p, s; destruct e;
    cbn [completes awaited addSub removeSub loadStarts step username
         fetching];
    try discriminate; intros _;
    cbn [Rx.loadSub Rx.addSub Rx.removeSub Signals.addSub Signals.removeSub
         Signals.status Rx.username Signals.username];
    intros H1 H2; handlers; cbn; rewrite H1; split_tests;
    try discriminate; repeat split.
Qed.

Lemma fetch_result_becomes_notes (p : Paradigm) (s : ClientState p)
  (result : list Note) :
  fetching p s = true -> notes p (fst (step p s (ListNext result))) = result.
Proof.
  destruct p, s; cbn [fetching step notes Rx.loadSub]; intros H; handlers;
    cbn in *; rewrite H; split_tests; reflexivity.
Qed.

(** Where the reload does happen.  In both clients, whenever a create or a
    delete completes while a call of [loadNotes()] starts a load (the load
    effect of the stream client is still subscribed; the resource of the
    signal client is resolved or failed), a list fetch for the current
    username is sent, and the list it resolves with becomes the notes of
    the client: served after the mutation, it holds the note a create for
    that username inserted, with its id as a number, and - the stored ids
    being integers that numbers hold as they are - no note with the id a
    delete removed. *)
Lemma mutation_success_reloads_the_list
  (p : Paradigm) (s : ClientState p) (e : Event) :
  completes e = true -> awaited p s e = true -> loadStarts p s = true ->
  let s1 := fst (step p s e) in
  let seen result := notes p (fst (step p s1 (ListNext result))) in
  let u := username p s in
  snd (step p s e) = [ListQuery u]
  /\ (forall result, seen result = result)
  /\ (forall db now t row,
        e = CreateNext -> addSub p s = InFlight (t, u) ->
        snd (noteRouter.create db now t u) = Some [row] ->
        In (numbered row)
           (seen (noteRouter.list (fst (noteRouter.create db now t u)) u)))
  /\ (forall db i n,
        e = RemoveNext -> removeSub p s = InFlight i -> safeIds db ->
        In n (seen (noteRouter.list (fst (noteRouter.remove db i)) u)) ->
        id n <> i).
Proof.
  intros Hc Ha Hr s1 seen u.
  destruct (mutation_reloads p s e Hc Ha Hr) as [Hout [Hf Hu]].
  assert (Hseen : forall result, seen result = result)
    by (intros result; now apply fetch_result_becomes_notes).
  split; [exact Hout|]. split; [exact Hseen|]. split.
  - intros db now t row _ _ Hrow. rewrite Hseen.
    now apply noteRouterFacts.create_then_list.
  - intros db i n _ _ Hs. rewrite Hseen.
    now apply noteRouterFacts.remove_then_list.
Qed.

Lemma mutation_success_reloads_the_list_witness :
  let s := run Rx.step Rx.init
             [SetUsername "joe"; ListNext [tea]; AddNote "x"] in
  completes CreateNext = true
  /\ awaited Stream s CreateNext = true
  /\ loadStarts Stream s = true
  /\ snd (step Stream s CreateNext) = [ListQuery (username Stream s)].
Proof.
  intros s.
  assert (H1 : completes CreateNext = true) by reflexivity.
  assert (H2 : awaited Stream s CreateNext = true) by (vm_compute; reflexivity).
  assert (H3 : loadStarts Stream s = true) by (vm_compute; reflexivity).
  split; [exact H1|]. split; [exact H2|]. split; [exact H3|].
  exact (proj1 (mutation_success_reloads_the_list Stream s CreateNext
                  H1 H2 H3)).
Defined.

(** A run of the stream client against the router: the note created for
    joe is in the notes once the reload resolves. *)
Example stream_create_then_reload :
  let s := run Rx.step Rx.init
             [SetUsername "joe"; ListNext [tea]; AddNote "x"] in
  let created := noteRouter.create sampleDb 5 "x" "joe" in
  let s1 := fst (Rx.step s CreateNext) in
  snd created = Some [mkNote 4 "x" "joe" 5]
  /\ Rx.notes
       (fst (Rx.step s1 (ListNext (noteRouter.list (fst created) "joe"))))
     = [tea; mkNote 4 "x" "joe" 5].
Proof. vm_compute. split; reflexivity. Qed.

(** C5, on the stream client after a failed fetch.  The first list fetch
    fails, then a note is added and the create completes: the observer of
    the add note effect calls [_loadNotes$.next()], but the load effect was
    unsubscribed by the error and no list fetch is sent, where the
    specification has a reload triggered whenever a mutation completes -
    as the signal client does send one on the same run.  The property as
    worded does not hold of the clients. *)
Theorem stream_mutation_after_failed_fetch_reloads_nothing :
  let s := run Rx.step Rx.init [ListError "boom"; AddNote "x"] in
  reachable Stream s
  /\ awaited Stream s CreateNext = true
  /\ snd (step Stream s CreateNext) = []
  /\ snd (step Signal
               (run Signals.step Signals.init [ListError "boom"; AddNote "x"])
               CreateNext)
     = [ListQuery ""]
  /\ ~ reloads_after_every_mutation.
Proof.
  split; [apply (reachable_run Stream); constructor|].
  split; [reflexivity|]. split; [reflexivity|].
  split; [vm_compute; reflexivity|].
  intros H.
  destruct (H Stream (run Rx.step Rx.init [ListError "boom"; AddNote "x"])
              CreateNext) as [u Hu];
    [apply (reachable_run Stream); constructor | reflexivity | reflexivity|].
  exact Hu.
Qed.

(** The signal client in its first load: [reload()] declines, and the
    completing mutation sends nothing either. *)
Example signal_mutation_during_first_load :
  let s := run Signals.step Signals.init [AddNote "x"] in
  Signals.status s = Signals.Loading
  /\ awaited Signal s CreateNext = true
  /\ snd (Signals.step s CreateNext) = [].
Proof. vm_compute. repeat split. Qed.

(** The same while the resource reloads: the load under way is kept. *)
Example signal_mutation_during_reload :
  let s := run Signals.step Signals.init
             [ListNext [milk]; AddNote "x"; LoadNotes] in
  Signals.status s = Signals.Reloading
  /\ awaited Signal s CreateNext = true
  /\ Signals.step s LoadNotes = (s, [])
  /\ snd (Signals.step s CreateNext) = []
  /\ Signals.status (fst (Signals.step s CreateNext)) = Signals.Reloading.
Proof. vm_compute. repeat split. Qed.

(** ** The refresh timer *)

Lemma oneTimer_step (s : Rx.State) (e : Event) :
  oneTimer s -> oneTimer (fst (Rx.step s e)).
Proof.
  unfold oneTimer. destruct s as [? ? ? ? ? ? rt [pd nh] ? ? ? ?].
  cbn [Rx.timers Rx.refreshTimer pending].
  intros [-> | [h [-> ->]]]; destruct e; cbn [Rx.step]; handlers;
    split_tests; rewrite ?Nat.eqb_refl in *; cbn in *;
    try discriminate; eauto.
Qed.

Lemma oneTimer_reachable (s : Rx.State) : reachable Stream s -> oneTimer s.
Proof.
  induction 1 as [|s e _ IH]; [now left | now apply oneTimer_step].
Qed.

(** Stream client: a resolved fetch hides the prompt and leaves exactly one
    timer, of 4000 ms; when it runs out the prompt shows; [ngOnDestroy]
    clears it. *)
Lemma stream_refresh_timer (s : Rx.State) :
  reachable Stream s ->
  (forall result, fetching Stream s = true ->
     let s1 := fst (Rx.step s (ListNext result)) in
     Rx.showRefresh s1 = false
     /\ exists h, Rx.refreshTimer s1 = Some h
                  /\ pending (Rx.timers s1) = [(h, 4000%Z)]
                  /\ Rx.showRefresh (fst (Rx.step s1 (TimerExpired h))) = true)
  /\ pending (Rx.timers (fst (Rx.step s Destroy))) = [].
Proof.
  intros Hs. apply oneTimer_reachable in Hs. revert Hs. unfold oneTimer.
  destruct s as [? ? ? ? ? ? rt [pd nh] ls ? ? ?].
  cbn [Rx.timers Rx.refreshTimer pending fetching Rx.loadSub].
  intros [-> | [h [-> ->]]]; (split; [intros result Hf|]);
    cbn [Rx.step]; handlers; cbn; rewrite ?Hf; cbn;
    rewrite ?Nat.eqb_refl; cbn; split_tests; rewrite ?Nat.eqb_refl; cbn;
    try (split; [reflexivity|]); try reflexivity;
    eexists; cbn; rewrite ?Nat.eqb_refl; cbn; repeat split.
Qed.

(** C4, on the signal client's teardown. A fetch resolves and the page
    reads [showRefresh()]: the prompt is hidden and one timer of 4000 ms is
    pending.  Then the component is torn down: the timer of the signal
    client is still pending and, running out, sets the prompt, where the
    specification has it cleared on teardown - as [ngOnDestroy] of the
    stream client does on the same run.  The teardown of the signal client
    never touches a timer. *)
Theorem signal_teardown_keeps_the_refresh_timer :
  let resolved := run Signals.step Signals.init [ListNext [milk]; Render] in
  let torn := fst (Signals.step resolved Destroy) in
  Signals.showRefreshValue resolved = false
  /\ pending (Signals.timers resolved) = [(1%nat, 4000%Z)]
  /\ pending (Signals.timers torn) = [(1%nat, 4000%Z)]
  /\ Signals.showRefreshValue (fst (Signals.step torn (TimerExpired 1)))
     = true
  /\ pending (Rx.timers (run Rx.step Rx.init [ListNext [milk]; Render]))
     = [(1%nat, 4000%Z)]
  /\ pending (Rx.timers
                (run Rx.step Rx.init [ListNext [milk]; Render; Destroy]))
     = []
  /\ forall s, Signals.timers (fst (Signals.step s Destroy))
               = Signals.timers s.
Proof.
  repeat (split; [vm_compute; reflexivity|]).
  intros s. destruct s. cbn [Signals.step]. handlers. split_tests; reflexivity.
Qed.

(** Signal client, on a page that reads [showRefresh()] after the fetch
    resolved: the prompt is hidden and a timer of 4000 ms is pending, whose
    handle is [timerId]; when it runs out the prompt shows. *)
Lemma signal_refresh_timer (s : Signals.State) (result : list Note) :
  Signals.destroyed s = false ->
  Signals.isLoading s = true ->
  let s1 := run Signals.step s [ListNext result; Render] in
  let h := Signals.timerId s1 in
  Signals.showRefreshValue s1 = false
  /\ In (h, 4000%Z) (pending (Signals.timers s1))
  /\ Signals.showRefreshValue (fst (Signals.step s1 (TimerExpired h))) = true.
Proof.
  destruct s as [st ? ? ? ? ? ? ? ? ? ? ? tid [pd nh] ? ?].
  cbn [Signals.destroyed Signals.isLoading Signals.status run].
  intros -> Hl. cbn [Signals.step]. handlers.
  destruct st; try discriminate Hl; cbn; split_tests;
    rewrite ?Nat.eqb_refl in *; cbn in *; try discriminate; split_tests;
    repeat split; try discriminate; try (now left).
Qed.

(** * Further properties *)

(** ** The note router: identifiers, and how the operations compose *)

Module noteRouterMore.
Import noteRouter.

Lemma NoDup_map_filter {A B} (f : A -> B) (p : A -> bool)
  (l : Datatypes.list A) :
  NoDup (map f l) -> NoDup (map f (filter p l)).
Proof.
  induction l as [|a l IH]; simpl; intros H; [constructor|].
  inversion H as [|? ? Hn Hd]; subst. destruct (p a); simpl; auto.
  constructor; auto. intros Hin. apply Hn.
  apply in_map_iff in Hin as [x [Hx Hin]]. apply filter_In in Hin as [Hin _].
  apply in_map_iff. now exists x.
Qed.

Lemma filter_none {A} (p : A -> bool) (l : Datatypes.list A) :
  (forall x, In x l -> p x = false) -> filter p l = [].
Proof.
  induction l as [|a l IH]; intros H; [reflexivity|].
  simpl. rewrite (H a (or_introl eq_refl)). apply IH.
  intros x Hx. apply H. now right.
Qed.

Lemma filter_every {A} (p : A -> bool) (l : Datatypes.list A) :
  (forall x, In x l -> p x = true) -> filter p l = l.
Proof.
  induction l as [|a l IH]; intros H; [reflexivity|].
  simpl. rewrite (H a (or_introl eq_refl)). f_equal. apply IH.
  intros x Hx. apply H. now right.
Qed.

Lemma filter_comm {A} (p q : A -> bool) (l : Datatypes.list A) :
  filter p (filter q l) = filter q (filter p l).
Proof.
  induction l as [|a l IH]; [reflexivity|].
  simpl. destruct (p a) eqn:Ep, (q a) eqn:Eq; simpl;
    rewrite ?Ep, ?Eq, IH; reflexivity.
Qed.

Lemma ids_below_seq (db : Db) (n : Note) :
  wellFormed db -> In n (rows db) -> (id n <= note_id_seq db)%Z.
Proof.
  intros [_ H] Hin. rewrite Forall_forall in H. now apply H.
Qed.

Lemma wellFormed_create (db : Db) (now : Z) (t u : string) :
  wellFormed db -> wellFormed (fst (create db now t u)).
Proof.
  intros Hw. pose proof Hw as [Hn Hf].
  destruct (noteRouterFacts.create_cases db now t u) as [[_ ->] | [_ ->]];
    split; cbn [fst rows note_id_seq].
  - exact Hn.
  - rewrite Forall_forall in *. intros x Hx. specialize (Hf x Hx). lia.
  - rewrite map_app. simpl.
    apply Permutation_NoDup
      with (l := (note_id_seq db + 1)%Z :: map id (rows db)).
    + apply Permutation_cons_append.
    + constructor; [|exact Hn]. intros Hin.
      apply in_map_iff in Hin as [x [Hx Hin]].
      pose proof (ids_below_seq db x Hw Hin). lia.
  - apply Forall_app. split.
    + rewrite Forall_forall in *. intros x Hx. specialize (Hf x Hx). lia.
    + repeat constructor. simpl. lia.
Qed.

(** On such a table the insert never raises. *)
Lemma create_succeeds (db : Db) (now : Z) (t u : string) :
  wellFormed db ->
  create db now t u
  = (mkDb (rows db ++ [mkNote (note_id_seq db + 1) t u now])
          (note_id_seq db + 1),
     Some [mkNote (note_id_seq db + 1) t u now]).
Proof.
  intros Hw.
  destruct (noteRouterFacts.create_cases db now t u)
    as [[[n [Hn Hi]] _] | [_ H]]; [|exact H].
  pose proof (ids_below_seq db n Hw Hn). lia.
Qed.

Lemma wellFormed_remove (db : Db) (i : Z) :
  wellFormed db -> wellFormed (fst (remove db i)).
Proof.
  intros [Hn Hf]. split; simpl.
  - now apply NoDup_map_filter.
  - rewrite Forall_forall in *. intros x Hx.
    apply filter_In in Hx as [Hx _]. now apply Hf.
Qed.

End noteRouterMore.

Lemma wellFormed_sampleDb : wellFormed sampleDb.
Proof.
  split; simpl.
  - repeat constructor; simpl; intuition discriminate.
  - repeat constructor; simpl; lia.
Qed.

(** X1. On a table whose ids are distinct and came from the sequence,
    [create] and [remove] keep the table so, and [create] does not raise
    but returns exactly one row: it carries the given text and person, the
    current instant, and an id no stored note has. *)
Theorem router_keeps_ids_unique
  (db : noteRouter.Db) (now : Z) (t u : string) (i : Z) :
  wellFormed db ->
  wellFormed (fst (noteRouter.create db now t u))
  /\ wellFormed (fst (noteRouter.remove db i))
  /\ exists row,
       snd (noteRouter.create db now t u) = Some [row]
       /\ note row = t /\ person row = u /\ createdAt row = now
       /\ forall n, In n (noteRouter.rows db) -> id n <> id row.
Proof.
  intros Hw. split; [now apply noteRouterMore.wellFormed_create|].
  split; [now apply noteRouterMore.wellFormed_remove|].
  rewrite (noteRouterMore.create_succeeds db now t u Hw).
  eexists. split; [reflexivity|]. simpl. repeat split.
  intros n Hn. pose proof (noteRouterMore.ids_below_seq db n Hw Hn). lia.
Qed.

Lemma router_keeps_ids_unique_witness :
  wellFormed sampleDb
  /\ wellFormed (fst (noteRouter.create sampleDb 5 "x" "joe"))
  /\ wellFormed (fst (noteRouter.remove sampleDb 2)).
Proof.
  split; [exact wellFormed_sampleDb|].
  destruct (router_keeps_ids_unique sampleDb 5 "x" "joe" 2
              wellFormed_sampleDb) as [H1 [H2 _]].
  split; [exact H1 | exact H2].
Defined.





(** X4. After a remove, every list holds the stored notes of the person
    whose id is another one, each with its id as a number and in the
    order of the table; with stored ids that numbers hold as they are,
    that is the list from before without the notes with the id.  Removing
    an id no stored note has deletes nothing and leaves the table as it
    is, so that removing twice is removing once. *)
Theorem remove_composes_with_list
  (db : noteRouter.Db) (i : Z) (u : string) :
  noteRouter.list (fst (noteRouter.remove db i)) u
  = map numbered
        (filter (fun n => negb (id n =? i)%Z)
                (filter (fun n => String.eqb (person n) u)
                        (noteRouter.rows db)))
  /\ (safeIds db ->
      noteRouter.list (fst (noteRouter.remove db i)) u
      = filter (fun n => negb (id n =? i)%Z) (noteRouter.list db u))
  /\ ((forall n, In n (noteRouter.rows db) -> id n <> i) ->
      noteRouter.remove db i = (db, []))
  /\ noteRouter.remove (fst (noteRouter.remove db i)) i
     = (fst (noteRouter.remove db i), []).
Proof.
  assert (Habsent : forall d : noteRouter.Db,
             (forall n, In n (noteRouter.rows d) -> id n <> i) ->
             noteRouter.remove d i = (d, [])).
  { intros [rs sq] H. unfold noteRouter.remove. simpl in *. f_equal.
    - f_equal. apply noteRouterMore.filter_every. intros x Hx.
      apply negb_true_iff, Z.eqb_neq. now apply H.
    - apply noteRouterMore.filter_none. intros x Hx.
      apply Z.eqb_neq. now apply H. }
  split; [|split; [|split]].
  - rewrite noteRouterFacts.list_numbered. simpl. f_equal.
    apply noteRouterMore.filter_comm.
  - intros Hs.
    rewrite (noteRouterFacts.list_as_filter _ u
               (noteRouterFacts.safeIds_remove db i Hs)),
            (noteRouterFacts.list_as_filter db u Hs).
    simpl. apply noteRouterMore.filter_comm.
  - apply Habsent.
  - apply Habsent. intros n Hn. simpl in Hn.
    apply filter_In in Hn as [_ Hn].
    now apply negb_true_iff, Z.eqb_neq in Hn.
Qed.

Lemma remove_composes_with_list_witness :
  safeIds sampleDb
  /\ noteRouter.list (fst (noteRouter.remove sampleDb 2)) "ann"
     = filter (fun n => negb (id n =? 2)%Z) (noteRouter.list sampleDb "ann")
  /\ noteRouter.remove sampleDb 7 = (sampleDb, []).
Proof.
  destruct (remove_composes_with_list sampleDb 2 "ann") as [_ [H1 _]].
  destruct (remove_composes_with_list sampleDb 7 "ann") as [_ [_ [H2 _]]].
  split; [exact safeIds_sampleDb|]. split.
  - exact (H1 safeIds_sampleDb).
  - apply H2. simpl. intros n [<- | [<- | [<- | []]]]; discriminate.
Defined.

(** X5. On a table with distinct ids a remove deletes at most one note;
    and when the stored ids are integers that numbers hold as they are, no
    list returns two notes with the same id. *)
Theorem remove_deletes_at_most_one_note
  (db : noteRouter.Db) (i : Z) (u : string) :
  wellFormed db ->
  (List.length (snd (noteRouter.remove db i)) <= 1)%nat
  /\ (safeIds db -> NoDup (map id (noteRouter.list db u))).
Proof.
  intros [Hn _]. split.
  - simpl. induction (noteRouter.rows db) as [|a l IH]; simpl; [lia|].
    inversion Hn as [|? ? Ha Hl]; subst.
    destruct (id a =? i)%Z eqn:E; [|now apply IH].
    apply Z.eqb_eq in E. simpl.
    rewrite noteRouterMore.filter_none; [simpl; lia|].
    intros x Hx. apply Z.eqb_neq. intros Hxi. apply Ha.
    apply in_map_iff. exists x. split; [congruence | exact Hx].
  - intros Hs. rewrite (noteRouterFacts.list_as_filter db u Hs).
    now apply noteRouterMore.NoDup_map_filter.
Qed.

Lemma remove_deletes_at_most_one_note_witness :
  wellFormed sampleDb
  /\ safeIds sampleDb
  /\ (List.length (snd (noteRouter.remove sampleDb 2)) <= 1)%nat
  /\ NoDup (map id (noteRouter.list sampleDb "ann")).
Proof.
  destruct (remove_deletes_at_most_one_note sampleDb 2 "ann"
              wellFormed_sampleDb) as [H1 H2].
  split; [exact wellFormed_sampleDb|]. split; [exact safeIds_sampleDb|].
  split; [exact H1 | exact (H2 safeIds_sampleDb)].
Defined.

(** ** The filters: counts, words *)

Section FilteringMore.

Variable toLowerCase : string -> string.
Variable toLocaleDateString : Z -> string.

Local Abbreviation searchTerms := (searchTerms toLowerCase).
Local Abbreviation filterNotes := (filterNotes toLowerCase toLocaleDateString).
Local Abbreviation filteredNotes :=
  (filteredNotes toLowerCase toLocaleDateString).
Local Abbreviation keeps := (keeps toLowerCase toLocaleDateString).

Lemma filter_length_le {A} (f : A -> bool) (l : list A) :
  (List.length (filter f l) <= List.length l)%nat.
Proof.
  induction l as [|a l IH]; simpl; [lia|]. destruct (f a); simpl; lia.
Qed.

Lemma filter_idem {A} (f : A -> bool) (l : list A) :
  filter f (filter f l) = filter f l.
Proof.
  induction l as [|a l IH]; [reflexivity|].
  simpl. destruct (f a) eqn:E; simpl; rewrite ?E, IH; reflexivity.
Qed.

Lemma string_app_assoc (a b c : string) :
  ((a ++ b) ++ c = a ++ b ++ c)%string.
Proof. induction a as [|x a IH]; simpl; [reflexivity | now rewrite IH]. Qed.

(** Each piece occurs in the joined string. *)
Lemma join_substring (sep : ascii) (pieces : list string) (w : string) :
  In w pieces -> JS.Substring w (JS.join sep pieces).
Proof.
  induction pieces as [|v vs IH]; intros H; [destruct H|].
  destruct vs as [|v' vs].
  - destruct H as [<- | []]. exists EmptyString, EmptyString. simpl.
    clear. induction v as [|x v IHv]; simpl; [reflexivity | now rewrite <- IHv].
  - cbn [JS.join] in *. destruct H as [<- | H].
    + now exists EmptyString, (String sep (JS.join sep (v' :: vs))).
    + destruct (IH H) as [pre [post Hj]].
      exists (v ++ String sep pre)%string, post.
      rewrite Hj at 1. rewrite string_app_assoc. reflexivity.
Qed.

(** X8. The search terms are words of the lowercased filter text: each is
    non-empty, holds no space, and occurs in the lowercased text. *)
Theorem search_terms_are_words (term t : string) :
  In t (searchTerms term) ->
  JS.truthy t = true
  /\ JS.hasChar space t = false
  /\ JS.Substring t (toLowerCase term).
Proof.
  intros H. split; [now apply searchTerms_truthy in H|].
  split; [now apply searchTerms_no_space in H|].
  apply searchTerms_spec in H as [H _].
  rewrite <- (JSFacts.join_split space (toLowerCase term)).
  now apply join_substring.
Qed.

(** X6. Each page shows at most as many filtered notes as notes, and
    filtering what a filter returned, by the same text, changes nothing. *)
Theorem filtered_count_is_at_most_total
  (sr : Rx.State) (ss : Signals.State) (notes : list Note) (term : string) :
  (Rx.filteredNotesCount toLowerCase toLocaleDateString sr
   <= Rx.totalNotesCount sr)%nat
  /\ (Signals.filteredNotesCount toLowerCase toLocaleDateString ss
      <= Signals.totalNotesCount ss)%nat
  /\ filterNotes (filterNotes notes term) term = filterNotes notes term
  /\ filteredNotes (filteredNotes notes term) term = filteredNotes notes term.
Proof.
  unfold Rx.filteredNotesCount, Rx.filteredNotes, Rx.totalNotesCount,
    Signals.filteredNotesCount, Signals.filteredNotes,
    Signals.totalNotesCount, filterNotes, filteredNotes.
  repeat split.
  - destruct (negb (JS.truthy (Rx.filterTerm sr)));
      [lia | apply filter_length_le].
  - destruct (List.length (searchTerms (Signals.filterText ss)) =? 0)%nat;
      [lia | apply filter_length_le].
  - destruct (negb (JS.truthy term)); [reflexivity | apply filter_idem].
  - destruct (List.length (searchTerms term) =? 0)%nat;
      [reflexivity | apply filter_idem].
Qed.

(** X16. What each page shows of the list.  The rows and the two messages
    stand in the template the error block replaces: while the error of the
    client is truthy, no row and no message is shown.  Otherwise the rows
    are the filtered notes of the client, and a message is shown exactly
    when no row is: "No notes yet!" when the client holds no note, "No
    notes matching filter!" when it holds some; never both. *)
Theorem one_message_for_an_empty_list (sr : Rx.State) (ss : Signals.State) :
  let page error notes filtered :=
    (showsError error = true ->
     rowsShown error filtered = []
     /\ noNotesYetShown error notes = false
     /\ noMatchShown error notes filtered = false)
    /\ (showsError error = false ->
        rowsShown error filtered = filtered
        /\ noNotesYetShown error notes = (List.length notes =? 0)%nat
        /\ (List.length filtered =? 0)%nat
           = xorb (noNotesYetShown error notes)
                  (noMatchShown error notes filtered)
        /\ noNotesYetShown error notes
           && noMatchShown error notes filtered = false) in
  page (Rx.error sr) (Rx.notes sr)
       (Rx.filteredNotes toLowerCase toLocaleDateString sr)
  /\ page (Signals.error ss) (Signals.notes ss)
          (Signals.filteredNotes toLowerCase toLocaleDateString ss).
Proof.
  unfold rowsShown, noNotesYetShown, noMatchShown, showsNotes,
    showsNoNotesYet, showsNoMatch, Rx.filteredNotes, Signals.filteredNotes,
    filterNotes, filteredNotes.
  split; (split; intros ->; cbn [negb andb]; [repeat split|]).
  - destruct (Rx.notes sr) as [|n l].
    + destruct (negb (JS.truthy (Rx.filterTerm sr))); repeat split.
    + cbn [List.length Nat.eqb negb andb xorb]. repeat split.
  - destruct (Signals.notes ss) as [|n l].
    + destruct (List.length (searchTerms (Signals.filterText ss)) =? 0)%nat;
        repeat split.
    + cbn [List.length Nat.eqb negb andb xorb]. repeat split.
Qed.

(** Lowercasing the empty string gives the empty string. *)
Hypothesis toLowerCase_empty : toLowerCase "" = "".

Lemma keeps_narrows (t1 t2 : string) (item : Note) :
  incl (searchTerms t1) (searchTerms t2) ->
  keeps t2 item = true -> keeps t1 item = true.
Proof.
  unfold keeps. rewrite !forallb_forall. intros Hi H t Ht.
  apply H, Hi, Ht.
Qed.

(** X7. The words of the filter text count, not their order or number of
    occurrences: a text whose words are among those of another keeps every
    note the other keeps, and two texts with the same words filter alike,
    in both clients. *)
Theorem filters_depend_on_the_words_only
  (notes : list Note) (t1 t2 : string) :
  incl (searchTerms t1) (searchTerms t2) ->
  incl (filterNotes notes t2) (filterNotes notes t1)
  /\ incl (filteredNotes notes t2) (filteredNotes notes t1)
  /\ (incl (searchTerms t2) (searchTerms t1) ->
      filterNotes notes t1 = filterNotes notes t2
      /\ filteredNotes notes t1 = filteredNotes notes t2).
Proof.
  intros H12.
  rewrite !(filterNotes_keeps toLowerCase toLocaleDateString
              toLowerCase_empty),
          !(filteredNotes_keeps toLowerCase toLocaleDateString).
  assert (Hi : incl (filter (keeps t2) notes) (filter (keeps t1) notes)).
  { intros n Hn. apply filter_In in Hn as [Hn Hk]. apply filter_In.
    split; [exact Hn | now apply keeps_narrows with (t2 := t2)]. }
  split; [exact Hi|]. split; [exact Hi|]. intros H21.
  assert (He : filter (keeps t1) notes = filter (keeps t2) notes).
  { apply filter_ext. intros n. apply Bool.eq_true_iff_eq.
    split; now apply keeps_narrows. }
  now rewrite He.
Qed.

End FilteringMore.

Lemma filters_depend_on_the_words_only_witness :
  asciiToLowerCase "" = ""
  /\ incl (searchTerms asciiToLowerCase "milk buy")
          (searchTerms asciiToLowerCase "Buy  buy MILK")
  /\ filterNotes asciiToLowerCase enUSDate [milk; bob; tea] "milk buy"
     = filterNotes asciiToLowerCase enUSDate [milk; bob; tea] "Buy  buy MILK".
Proof.
  assert (H1 : incl (searchTerms asciiToLowerCase "milk buy")
                    (searchTerms asciiToLowerCase "Buy  buy MILK"))
    by (intros t [<- | [<- | []]]; simpl; tauto).
  assert (H2 : incl (searchTerms asciiToLowerCase "Buy  buy MILK")
                    (searchTerms asciiToLowerCase "milk buy"))
    by (intros t [<- | [<- | [<- | []]]]; simpl; tauto).
  split; [reflexivity|]. split; [exact H1|].
  destruct (filters_depend_on_the_words_only asciiToLowerCase enUSDate
              eq_refl [milk; bob; tea] "milk buy" "Buy  buy MILK" H1)
    as [_ [_ H]].
  exact (proj1 (H H2)).
Defined.

Lemma search_terms_are_words_witness :
  In "bar" (searchTerms asciiToLowerCase " Foo  BAR")
  /\ JS.Substring "bar" (asciiToLowerCase " Foo  BAR").
Proof.
  assert (H : In "bar" (searchTerms asciiToLowerCase " Foo  BAR"))
    by (simpl; tauto).
  split; [exact H|].
  exact (proj2 (proj2 (search_terms_are_words asciiToLowerCase
                         " Foo  BAR" "bar" H))).
Defined.

(** ** The clients: usernames, loading, errors, teardown *)

(** X9. Stream client, while it is subscribed: [setUsername] fetches twice.
    The new username triggers a load through the subscriber of
    [username$], and [setUsername] then calls [loadNotes()] itself: two
    list queries for the new username are sent, of which [switchMap] keeps
    the last; the loading flag is up, the error is cleared, and the notes
    of the previous username stay until the fetch resolves. *)
Theorem stream_setUsername_fetches_twice (s : Rx.State) (u : string) :
  subscribed (Rx.loadSub s) = true -> Rx.usernameSub s = true ->
  let r := Rx.step s (SetUsername u) in
  snd r = [ListQuery u; ListQuery u]
  /\ Rx.loadSub (fst r) = InFlight u
  /\ Rx.username (fst r) = u
  /\ Rx.loading (fst r) = true
  /\ Rx.error (fst r) = None
  /\ Rx.notes (fst r) = Rx.notes s.
Proof.
  destruct s as [? ? ? ? ? ? ? ? ls ? ? us].
  cbn [Rx.loadSub Rx.usernameSub]. intros Hl ->.
  cbn [Rx.step]. handlers. cbn. rewrite Hl. cbn. repeat split.
Qed.

Lemma stream_setUsername_fetches_twice_witness :
  subscribed (Rx.loadSub Rx.init) = true
  /\ Rx.usernameSub Rx.init = true
  /\ snd (Rx.step Rx.init (SetUsername "ann"))
     = [ListQuery "ann"; ListQuery "ann"].
Proof.
  split; [reflexivity|]. split; [reflexivity|].
  exact (proj1 (stream_setUsername_fetches_twice Rx.init "ann"
                  eq_refl eq_refl)).
Defined.

(** X10. Signal client, before teardown: setting the username it already
    has changes nothing and sends nothing; setting another one sends one
    list query for it, and the notes are gone at once - the resource is in
    its first load, without a value and without an error - until the fetch
    resolves. *)
Theorem signal_setUsername_reloads_on_change (s : Signals.State) (u : string) :
  Signals.destroyed s = false ->
  let r := Signals.step s (SetUsername u) in
  (u = Signals.username s -> r = (s, []))
  /\ (u <> Signals.username s ->
      snd r = [ListQuery u]
      /\ Signals.username (fst r) = u
      /\ Signals.status (fst r) = Signals.Loading
      /\ Signals.notes (fst r) = []
      /\ Signals.resourceError (fst r) = None).
Proof.
  destruct s. cbn [Signals.destroyed Signals.username]. intros ->.
  cbn [Signals.step]. unfold Signals.notes. handlers. cbn. split.
  - intros ->. now rewrite String.eqb_refl.
  - intros Hne. apply String.eqb_neq in Hne. rewrite Hne.
    split_tests; repeat split.
Qed.

Lemma signal_setUsername_reloads_on_change_witness :
  let s := run Signals.step Signals.init [ListNext [milk; bob]] in
  Signals.destroyed s = false
  /\ Signals.step s (SetUsername "") = (s, [])
  /\ Signals.notes (fst (Signals.step s (SetUsername "ann"))) = [].
Proof.
  intros s. split; [reflexivity|].
  destruct (signal_setUsername_reloads_on_change s "" eq_refl) as [H1 _].
  destruct (signal_setUsername_reloads_on_change s "ann" eq_refl) as [_ H2].
  split; [apply H1; reflexivity|].
  apply H2. discriminate.
Defined.

(** X11. When a mutation completes and the list is reloaded, the loading
    flag of the stream client is down although the fetch is awaited - its
    observer calls [setLoading(false)] after triggering the load - while
    the loading signal of the signal client stays up. *)
Theorem loading_flag_during_the_reload
  (p : Paradigm) (s : ClientState p) (e : Event) :
  completes e = true -> awaited p s e = true -> canReload p s = true ->
  fetching p (fst (step p s e)) = true
  /\ loading p (fst (step p s e))
     = match p with Stream => false | Signal => true end.
Proof.
  destruct p, s; destruct e;
    cbn [completes awaited addSub removeSub canReload step loading fetching];
    try discriminate; intros _;
    cbn [Rx.loadSub Rx.addSub Rx.removeSub Signals.addSub Signals.removeSub
         Signals.status];
    intros H1 H2; unfold Signals.loading; handlers; cbn; rewrite H1;
    split_tests; try discriminate; repeat split.
Qed.

Lemma loading_flag_during_the_reload_witness :
  let s := run Rx.step Rx.init [ListNext [milk]; AddNote "x"] in
  completes CreateNext = true
  /\ awaited Stream s CreateNext = true
  /\ canReload Stream s = true
  /\ fetching Stream (fst (step Stream s CreateNext)) = true
  /\ loading Stream (fst (step Stream s CreateNext)) = false.
Proof.
  intros s.
  assert (H2 : awaited Stream s CreateNext = true) by (vm_compute; reflexivity).
  assert (H3 : canReload Stream s = true) by (vm_compute; reflexivity).
  split; [reflexivity|]. split; [exact H2|]. split; [exact H3|].
  exact (loading_flag_during_the_reload Stream s CreateNext eq_refl H2 H3).
Defined.

Lemma stream_loading_clears_error_step (s : Rx.State) (e : Event) :
  (Rx.loading s = true -> Rx.error s = None) ->
  Rx.loading (fst (Rx.step s e)) = true -> Rx.error (fst (Rx.step s e)) = None.
Proof.
  destruct s, e; cbn [Rx.loading Rx.error Rx.step]; intros H; handlers;
    split_tests; intros H'; try discriminate H'; try reflexivity; auto.
Qed.

Lemma stream_send_clears_error (s : Rx.State) (e : Event) :
  snd (Rx.step s e) <> [] -> Rx.error (fst (Rx.step s e)) = None.
Proof.
  destruct s, e; cbn [Rx.step]; handlers; split_tests; intros H;
    try reflexivity; now contradiction H.
Qed.

(** X12. Stream client: the loading flag and the error never show
    together - while the flag is up the error is null - and every event on
    which the client sends a request leaves the error cleared. *)
Theorem stream_loading_excludes_error (s : Rx.State) (e : Event) :
  reachable Stream s ->
  (Rx.loading s = true -> Rx.error s = None)
  /\ (snd (Rx.step s e) <> [] -> Rx.error (fst (Rx.step s e)) = None).
Proof.
  intros Hr. split; [|apply stream_send_clears_error].
  clear e. induction Hr as [|s e _ IH]; [reflexivity|].
  now apply stream_loading_clears_error_step.
Qed.

Lemma stream_loading_excludes_error_witness :
  let s := run Rx.step Rx.init [ListError "boom"] in
  reachable Stream s
  /\ Rx.error s = Some "boom"
  /\ snd (Rx.step s (AddNote "x")) <> []
  /\ Rx.error (fst (Rx.step s (AddNote "x"))) = None.
Proof.
  intros s.
  assert (Hr : reachable Stream s)
    by (apply (reachable_run Stream); constructor).
  assert (Hs : snd (Rx.step s (AddNote "x")) <> []) by discriminate.
  split; [exact Hr|]. split; [reflexivity|]. split; [exact Hs|].
  exact (proj2 (stream_loading_excludes_error s (AddNote "x") Hr) Hs).
Defined.

Lemma or_truthy (a b : option string) :
  JS.truthyOrNull a = true \/ JS.truthyOrNull b = true ->
  JS.truthyOrNull (JS.or a b) = true.
Proof.
  unfold JS.or. destruct (JS.truthyOrNull a) eqn:E; [now rewrite E|].
  intros [H | H]; [discriminate | exact H].
Qed.

Lemma errorOf_step (k : Pipeline) (s : Signals.State) (e : Event) :
  closed Signal k s ->
  errorOf k (fst (Signals.step s e)) = errorOf k s.
Proof.
  destruct k, s; destruct e; cbn [closed errorOf Signals.step];
    try contradiction;
    cbn [Signals.addSub Signals.removeSub]; intros ->; handlers;
    split_tests; reflexivity.
Qed.

Lemma errorOf_run (k : Pipeline) (s : Signals.State) (l : list Event) :
  closed Signal k s -> errorOf k (run Signals.step s l) = errorOf k s.
Proof.
  revert s; induction l as [|e l IH]; intros s H; [reflexivity|].
  cbn [run]. rewrite IH; [now apply errorOf_step|].
  now apply (closed_step Signal).
Qed.

(** X13. Signal client: a failed create or delete whose error text is not
    empty hides the notes for good.  The text stays in [errorCreate] or
    [errorDelete], which only the unsubscribed pipeline would clear, so the
    error signal is truthy from then on and the page shows the error block
    in place of the list, whatever happens later. *)
Theorem signal_failed_mutation_hides_the_notes
  (s : Signals.State) (e : Event) (k : Pipeline) (m : string)
  (later : list Event) :
  failingPipeline Signal s e = Some k ->
  messageOf e = Some m -> JS.truthy m = true ->
  let s' := run Signals.step (fst (Signals.step s e)) later in
  errorOf k s' = Some m
  /\ showsError (Signals.error s') = true
  /\ showsNotes (Signals.error s') = false.
Proof.
  intros Hf Hm Ht s'.
  assert (He : errorOf k s' = Some m).
  { unfold s'. rewrite errorOf_run.
    - now rewrite (failure_sets_error s e k Hf).
    - now apply (closed_after_failure Signal). }
  assert (Hs : showsError (Signals.error s') = true).
  { unfold showsError, Signals.error.
    destruct k; cbn [errorOf] in He.
    - destruct e; cbn [failingPipeline] in Hf; try discriminate;
        destruct (inFlight _); discriminate.
    - apply or_truthy. left. apply or_truthy. right. now rewrite He.
    - apply or_truthy. right. now rewrite He. }
  split; [exact He|]. split; [exact Hs|]. unfold showsNotes. now rewrite Hs.
Qed.

Lemma signal_failed_mutation_hides_the_notes_witness :
  let s := run Signals.step Signals.init [ListNext [milk]; DeleteNote 1] in
  let s' := run Signals.step (fst (Signals.step s (RemoveError "boom")))
              [LoadNotes; ListNext [milk]; SetUsername "ann"; ListNext []] in
  failingPipeline Signal s (RemoveError "boom") = Some RemovePipeline
  /\ showsNotes (Signals.error s') = false.
Proof.
  intros s s'.
  assert (H : failingPipeline Signal s (RemoveError "boom")
              = Some RemovePipeline) by (vm_compute; reflexivity).
  split; [exact H|].
  exact (proj2 (proj2 (signal_failed_mutation_hides_the_notes s
                         (RemoveError "boom") RemovePipeline "boom"
                         [LoadNotes; ListNext [milk]; SetUsername "ann";
                          ListNext []]
                         H eq_refl eq_refl))).
Defined.

Lemma tornDown_after_destroy (p : Paradigm) (s : ClientState p) :
  tornDown p (fst (step p s Destroy)).
Proof.
  destruct p, s; cbn [step tornDown Rx.step Signals.step]; handlers;
    split_tests; repeat split.
Qed.

Lemma tornDown_step (p : Paradigm) (s : ClientState p) (e : Event) :
  tornDown p s ->
  tornDown p (fst (step p s e)) /\ snd (step p s e) = [].
Proof.
  destruct p, s; destruct e; cbn [tornDown step];
    cbn [Rx.loadSub Rx.addSub Rx.removeSub Rx.usernameSub Signals.destroyed
         Signals.status Signals.addSub Signals.removeSub];
    intros [-> [-> [-> ->]]]; handlers; split_tests; repeat split.
Qed.

Lemma tornDown_sent (p : Paradigm) (s : ClientState p) (l : list Event) :
  tornDown p s -> sent (step p) s l = [].
Proof.
  revert s; induction l as [|e l IH]; intros s H; [reflexivity|].
  destruct (tornDown_step p s e H) as [H1 H2].
  cbn [sent]. now rewrite H2, IH.
Qed.

(** X14. After the teardown neither client sends a request again, whatever
    is called on it and whatever answer or timer arrives. *)
Theorem no_request_after_teardown
  (p : Paradigm) (s : ClientState p) (later : list Event) :
  snd (step p s Destroy) = []
  /\ sent (step p) (fst (step p s Destroy)) later = [].
Proof.
  split.
  - now apply sends_only_when_asked.
  - apply tornDown_sent, tornDown_after_destroy.
Qed.

(** X15. Every list query and every create a client sends is made for the
    username the client holds when it has sent it. *)
Theorem requests_are_for_the_current_username
  (p : Paradigm) (s : ClientState p) (e : Event) (r : Request) (u : string) :
  In r (snd (step p s e)) -> personOf r = Some u ->
  u = username p (fst (step p s e)).
Proof.
  destruct p, s; destruct e; cbn [step username]; handlers; split_tests;
    intros H; repeat (destruct H as [<- | H]); try contradiction;
    cbn [personOf]; intros [= <-]; reflexivity.
Qed.

Lemma requests_are_for_the_current_username_witness :
  let s := run Rx.step Rx.init [SetUsername "ann"; ListNext [milk]] in
  In (CreateMutate "x" "ann") (snd (step Stream s (AddNote "x")))
  /\ "ann" = username Stream (fst (step Stream s (AddNote "x"))).
Proof.
  intros s.
  assert (H : In (CreateMutate "x" "ann") (snd (step Stream s (AddNote "x"))))
    by (vm_compute; tauto).
  split; [exact H|].
  exact (requests_are_for_the_current_username Stream s (AddNote "x")
           (CreateMutate "x" "ann") "ann" H eq_refl).
Defined.

Lemma stream_fetch_username_step (s : Rx.State) (e : Event) :
  (forall u, Rx.loadSub s = InFlight u -> u = Rx.username s) ->
  forall u, Rx.loadSub (fst (Rx.step s e)) = InFlight u ->
            u = Rx.username (fst (Rx.step s e)).
Proof.
  destruct s as [? ? ? un ? ? ? ? ls ? ? us].
  cbn [Rx.loadSub Rx.username]. intros H. destruct e; cbn [Rx.step];
    handlers; split_tests; intros u Hu; try discriminate Hu;
    try (injection Hu as <-; reflexivity); try (subst; discriminate); auto.
Qed.

(** X17. Stream client: the list fetch it awaits is always one for the
    username it holds - a change of username replaces the awaited fetch -
    so the notes a fetch delivers are never those asked for under an
    earlier username. *)
Theorem stream_awaits_the_current_username (s : Rx.State) (u : string) :
  reachable Stream s -> Rx.loadSub s = InFlight u -> u = Rx.username s.
Proof.
  intros Hr. revert u. induction Hr as [|s e _ IH].
  - intros u [= <-]. reflexivity.
  - now apply stream_fetch_username_step.
Qed.

Lemma stream_awaits_the_current_username_witness :
  let s := run Rx.step Rx.init [SetUsername "ann"; SetUsername "joe"] in
  reachable Stream s
  /\ Rx.loadSub s = InFlight "joe"
  /\ "joe" = Rx.username s.
Proof.
  intros s.
  assert (Hr : reachable Stream s)
    by (apply (reachable_run Stream); constructor).
  assert (Hl : Rx.loadSub s = InFlight "joe") by reflexivity.
  split; [exact Hr|]. split; [exact Hl|].
  exact (stream_awaits_the_current_username s "joe" Hr Hl).
Defined.

(** X18. What changes the notes a client holds: in the stream client only
    a resolved list fetch; in the signal client also a change of username,
    a failed fetch and the teardown, which blank them.  No call of
    [loadNotes], [addNote], [deleteNote] or [setFilterTerm], no answer to a
    mutation, no timer and no rendering changes them. *)
Theorem notes_change_only_on_a_fetch
  (p : Paradigm) (s : ClientState p) (e : Event) :
  mayChangeNotes p e = false -> notes p (fst (step p s e)) = notes p s.
Proof.
  destruct p, s; destruct e; cbn [mayChangeNotes step notes];
    try discriminate; intros _; unfold Signals.notes; handlers;
    split_tests; reflexivity.
Qed.

Lemma notes_change_only_on_a_fetch_witness :
  let s := run Signals.step Signals.init [ListNext [milk; bob]] in
  mayChangeNotes Signal LoadNotes = false
  /\ notes Signal (fst (step Signal s LoadNotes)) = [milk; bob].
Proof.
  intros s. split; [reflexivity|].
  exact (notes_change_only_on_a_fetch Signal s LoadNotes eq_refl).
Defined.

Lemma one_message_for_an_empty_list_witness :
  let ss := run Signals.step Signals.init
              [ListNext []; AddNote "x"; CreateError "boom"] in
  let sr := run Rx.step Rx.init [ListNext [milk]; SetFilterTerm "tea"] in
  showsError (Signals.error ss) = true
  /\ noNotesYetShown (Signals.error ss) (Signals.notes ss) = false
  /\ showsError (Rx.error sr) = false
  /\ noMatchShown (Rx.error sr) (Rx.notes sr)
        (Rx.filteredNotes asciiToLowerCase enUSDate sr) = true.
Proof.
  intros ss sr.
  assert (H1 : showsError (Signals.error ss) = true) by reflexivity.
  assert (H2 : showsError (Rx.error sr) = false) by reflexivity.
  destruct (one_message_for_an_empty_list asciiToLowerCase enUSDate sr ss)
    as [[_ Hr] [Hs _]].
  split; [exact H1|]. split; [exact (proj1 (proj2 (Hs H1)))|].
  split; [exact H2|].
  destruct (Hr H2) as [_ [Hy [Hx _]]].
  rewrite Hy in Hx. vm_compute in Hx |- *. reflexivity.
Defined.
